(** * Ground segmentation of a point cloud: plane-relative coordinates,
      grid height map and floor / non-floor classification

    Shallow embedding of [04_dbscan_clustering.py]:
    - [transform_to_plane_based_coordinates]   (lines 7-42),
    - [calculate_height_map]                   (lines 45-116),
    - the classification loop of the script    (lines 207-221).

    Numbers.  The script computes on float64 arrays.  Rounding is idealised:
    the transformer, which takes a square root, is modelled over the reals,
    with one extra value for the non-finite results (inf, -inf, nan) that
    numpy produces for a division by zero; the grid code only adds, halves,
    squares and compares, and is modelled over the rationals, which keeps it
    executable. *)

From Stdlib Require Import List Bool Arith ZArith Lia.
From Stdlib Require Import QArith Qabs Qround Reals Lra.
From Stdlib Require Import Permutation Sorted.
From Stdlib Require Lqa.
Import ListNotations.

(** ** Outcome of a call: a returned value or a raised exception *)

(** The two places of [calculate_height_map] that can raise: [np.digitize]
    rejects bin edges that are neither ascending nor descending, and the
    [cKDTree] constructor rejects data that is not of shape (n, m), which is
    what [np.array] of an empty list of centres is. *)
Inductive exn : Type :=
| ValueError_digitize
| ValueError_cKDTree.

Inductive outcome (A : Type) : Type :=
| Returned (v : A)
| Raised (e : exn).
Arguments Returned {A} v.
Arguments Raised {A} e.

Definition bind {A B : Type} (m : outcome A) (k : A -> outcome B) : outcome B :=
  match m with
  | Returned v => k v
  | Raised e => Raised e
  end.

Notation "x <- m ;; k" := (bind m (fun x => k))
  (at level 61, m at next level, right associativity).

(** ** 1. Plane coordinate transformer *)

Section TransformerCode.
Local Open Scope R_scope.

(** A float64 result: a finite real, or a non-finite one (inf, -inf, nan). *)
Inductive float64 : Type :=
| Fin (r : R)
| NonFin.

(** [x / y] on finite operands; numpy warns and yields inf or nan when
    [y = 0], it does not raise. *)
Definition np_div (x y : R) : float64 :=
  if Req_dec_T y 0 then NonFin else Fin (x / y).

(** [t * r] with [r] finite: inf and nan stay non-finite. *)
Definition np_mul (t : float64) (r : R) : float64 :=
  match t with
  | Fin x => Fin (x * r)
  | NonFin => NonFin
  end.

(** [r - t] with [r] finite. *)
Definition np_sub (r : R) (t : float64) : float64 :=
  match t with
  | Fin x => Fin (r - x)
  | NonFin => NonFin
  end.

Definition point : Type := (R * R * R)%type.
Definition transformed_point : Type := (float64 * float64 * float64)%type.

(** [np.linalg.norm(np.array([a, b, c]))] *)
Definition linalg_norm (a b c : R) : R := sqrt (a * a + b * b + c * c).

(** One row of the vectorised computation of lines 29-39. *)
Definition transform_row (a b c d : R) (p : point) : transformed_point :=
  let '(x, y, z) := p in
  let normal_norm := linalg_norm a b c in
  let distance := np_div (a * x + b * y + c * z + d) (normal_norm ^ 2) in
  let projected_point :=
    (np_sub x (np_mul distance a),
     np_sub y (np_mul distance b),
     np_sub z (np_mul distance c)) in
  let plane_equation_value := a * x + b * y + c * z + d in
  let new_z := np_div plane_equation_value normal_norm in
  let new_x := fst (fst projected_point) in
  let new_y := snd (fst projected_point) in
  (new_x, new_y, new_z).

(** The function has no [raise] and calls nothing that raises on an (N, 3)
    array: it always returns. *)
Definition transform_to_plane_based_coordinates
    (points : list point) (a b c d : R) : outcome (list transformed_point) :=
  Returned (map (transform_row a b c d) points).

(** The signed plane value s(p). *)
Definition plane_value (a b c d : R) (p : point) : R :=
  let '(x, y, z) := p in a * x + b * y + c * z + d.

End TransformerCode.

(** ** 2. Grid height map builder *)

Section GridCode.
Local Open Scope Q_scope.

(** A transformed point (x', y', z') as the grid code reads it. *)
Definition tpoint : Type := (Q * Q * Q)%type.
Definition px (p : tpoint) : Q := fst (fst p).
Definition py (p : tpoint) : Q := snd (fst p).
Definition pz (p : tpoint) : Q := snd p.

(** Strict comparison [a < b] of two floats. *)
Definition Qlt_bool (a b : Q) : bool := negb (Qle_bool b a).

(** *** numpy: searchsorted and digitize *)

(** numpy's binary search for [side='right']: the interval
    [min_idx, max_idx) shrinks at every step, so [fuel] = its length is
    enough. *)
Fixpoint binsearch_right (fuel : nat) (arr : list Q) (key : Q)
    (min_idx max_idx : nat) : nat :=
  match fuel with
  | O => min_idx
  | S fuel' =>
      if (min_idx <? max_idx)%nat then
        let mid := (min_idx + (max_idx - min_idx) / 2)%nat in
        if Qlt_bool key (nth mid arr 0)
        then binsearch_right fuel' arr key min_idx mid
        else binsearch_right fuel' arr key (S mid) max_idx
      else min_idx
  end.

(** [np.searchsorted(arr, key, side='right')] *)
Definition searchsorted_right (arr : list Q) (key : Q) : Z :=
  Z.of_nat (binsearch_right (length arr) arr key 0 (length arr)).

Fixpoint nondecreasing (l : list Q) : bool :=
  match l with
  | a :: ((b :: _) as t) => Qle_bool a b && nondecreasing t
  | _ => true
  end.

Fixpoint nonincreasing (l : list Q) : bool :=
  match l with
  | a :: ((b :: _) as t) => Qle_bool b a && nonincreasing t
  | _ => true
  end.

(** numpy's monotonicity check of the bin edges: 1 ascending (constant
    included), -1 descending, 0 neither. *)
Definition monotonicity (bins : list Q) : Z :=
  if nondecreasing bins then 1%Z
  else if nonincreasing bins then (-1)%Z
  else 0%Z.

(** [np.digitize(xs, bins=bins)] with the default [right=False]. *)
Definition digitize (xs : list Q) (bins : list Q) : outcome (list Z) :=
  let mono := monotonicity bins in
  if (mono =? 0)%Z then Raised ValueError_digitize
  else if (mono =? -1)%Z then
    Returned (map (fun x => (Z.of_nat (length bins)
                             - searchsorted_right (rev bins) x)%Z) xs)
  else Returned (map (searchsorted_right bins) xs).

(** *** Python dict keyed by a cell (i, j), in insertion order *)

Definition cell : Type := (Z * Z)%type.

Definition cell_eqb (k1 k2 : cell) : bool :=
  ((fst k1 =? fst k2)%Z && (snd k1 =? snd k2)%Z)%bool.

Definition dict (V : Type) : Type := list (cell * V).

Fixpoint dict_get {V : Type} (k : cell) (d : dict V) : option V :=
  match d with
  | [] => None
  | (k', v) :: d' => if cell_eqb k k' then Some v else dict_get k d'
  end.

(** [d[k] = v]: overwrite in place, or append a new key at the end. *)
Fixpoint dict_set {V : Type} (k : cell) (v : V) (d : dict V) : dict V :=
  match d with
  | [] => [(k, v)]
  | (k', v') :: d' =>
      if cell_eqb k k' then (k', v) :: d' else (k', v') :: dict_set k v d'
  end.

(** *** Steps 1-2: bucketing and the valid mask *)

(** [0 <= i < len(bins) - 1] *)
Definition valid_index (bins : list Q) (i : Z) : bool :=
  ((0 <=? i)%Z && (i <? Z.of_nat (length bins) - 1)%Z)%bool.

(** [zip(valid_points[:, 2], x_indices, y_indices)] after masking. *)
Definition valid_entries (points : list tpoint) (x_bins y_bins : list Q)
    (x_indices y_indices : list Z) : list (Q * Z * Z) :=
  map (fun e : tpoint * Z * Z => let '(p, i, j) := e in (pz p, i, j))
    (filter (fun e : tpoint * Z * Z =>
               let '(_, i, j) := e in
               (valid_index x_bins i && valid_index y_bins j)%bool)
       (combine (combine points x_indices) y_indices)).

(** *** Step 3: z-values per cell, then the 5th-percentile estimate *)

Definition group_step (height_map : dict (list Q)) (e : Q * Z * Z)
    : dict (list Q) :=
  let '(z, i, j) := e in
  let key := (i, j) in
  match dict_get key height_map with
  | Some z_values => dict_set key (z_values ++ [z]) height_map
  | None => dict_set key [z] height_map
  end.

Fixpoint insert_sorted (x : Q) (l : list Q) : list Q :=
  match l with
  | [] => [x]
  | y :: t => if Qle_bool x y then x :: l else y :: insert_sorted x t
  end.

(** [np.sort]: the values in ascending order. *)
Definition np_sort (l : list Q) : list Q := fold_right insert_sorted [] l.

(** [max(0, int(len(sorted_z_values) * 0.05))].  The float product
    truncates to [n / 20] for every length below 2^53. *)
Definition index_5th_percentile (n : nat) : nat := Nat.max 0 (n / 20).

Definition cell_estimate (z_values : list Q) : option Q :=
  match z_values with
  | [] => None
  | _ :: _ =>
      let sorted_z_values := np_sort z_values in
      Some (nth (index_5th_percentile (length sorted_z_values))
              sorted_z_values 0)
  end.

Definition estimate_cells (height_map : dict (list Q)) : dict (option Q) :=
  map (fun kv : cell * list Q => (fst kv, cell_estimate (snd kv))) height_map.

(** Lines 49-56: the (z', i, j) of the points inside the grid. *)
Definition bucket_entries (points : list tpoint) (x_bins y_bins : list Q)
    : outcome (list (Q * Z * Z)) :=
  xd <- digitize (map px points) x_bins ;;
  yd <- digitize (map py points) y_bins ;;
  let x_indices := map (fun i => (i - 1)%Z) xd in
  let y_indices := map (fun i => (i - 1)%Z) yd in
  Returned (valid_entries points x_bins y_bins x_indices y_indices).

(** Lines 61-67: the z-values of each occupied cell, in frame order. *)
Definition group_cells (entries : list (Q * Z * Z)) : dict (list Q) :=
  fold_left group_step entries [].

(** Lines 49-75: the raw height map. *)
Definition raw_height_map (points : list tpoint) (x_bins y_bins : list Q)
    : outcome (dict (option Q)) :=
  entries <- bucket_entries points x_bins y_bins ;;
  Returned (estimate_cells (group_cells entries)).

(** *** Step 4: post-processing against the neighbouring cells *)

(** [bins[i]] for an index inside the array, which valid cells guarantee. *)
Definition bin_edge (bins : list Q) (i : Z) : Q := nth (Z.to_nat i) bins 0.

(** Centre of a cell: the bin midpoint on each axis. *)
Definition grid_center (x_bins y_bins : list Q) (key : cell) : Q * Q :=
  let '(i, j) := key in
  ((bin_edge x_bins i + bin_edge x_bins (i + 1)) / 2,
   (bin_edge y_bins j + bin_edge y_bins (j + 1)) / 2).

Definition is_not_None {V : Type} (v : option V) : bool :=
  match v with Some _ => true | None => false end.

(** [[key for key in height_map.keys() if height_map[key] is not None]] *)
Definition grid_keys (height_map : dict (option Q)) : list cell :=
  filter (fun key => match dict_get key height_map with
                     | Some v => is_not_None v
                     | None => false
                     end)
    (map fst height_map).

(** [np.array([height_map[key] for key in grid_keys])] *)
Definition grid_values (height_map : dict (option Q)) : list Q :=
  map (fun key => match dict_get key height_map with
                  | Some (Some h) => h
                  | _ => 0
                  end)
    (grid_keys height_map).

Definition grid_centers (height_map : dict (option Q))
    (x_bins y_bins : list Q) : list (Q * Q) :=
  map (grid_center x_bins y_bins) (grid_keys height_map).

(** [cKDTree(data)]: the tree answers exact radius queries over [data], so
    it is modelled by the data it indexes.  The constructor raises
    ValueError unless the array is 2-dimensional; [np.array([])] is not. *)
Definition cKDTree (data : list (Q * Q)) : outcome (list (Q * Q)) :=
  match data with
  | [] => Raised ValueError_cKDTree
  | _ :: _ => Returned data
  end.

Definition within_radius (r : Q) (p q : Q * Q) : bool :=
  Qle_bool ((fst p - fst q) * (fst p - fst q)
            + (snd p - snd q) * (snd p - snd q)) (r * r).

(** [kdtree.query_ball_point(q, r)]: the indices of the data points at
    Euclidean distance at most [r] of [q]. *)
Definition query_ball_point (kdtree : list (Q * Q)) (q : Q * Q) (r : Q)
    : list nat :=
  filter (fun idx => within_radius r (nth idx kdtree (0, 0)) q)
    (seq 0 (length kdtree)).

Definition search_radius : Q := 1.

(** Python's [min] of a non-empty list: the first smallest element. *)
Definition py_min (first : Q) (rest : list Q) : Q :=
  fold_left (fun m v => if Qlt_bool v m then v else m) rest first.

(** Lines 97-113: the value written for cell [key] with raw estimate
    [height]. *)
Definition processed_height (kdtree : list (Q * Q)) (values : list Q)
    (x_bins y_bins : list Q) (threshold : Q) (key : cell) (height : Q) : Q :=
  let indices :=
    query_ball_point kdtree (grid_center x_bins y_bins key) search_radius in
  let neighbor_heights := map (fun idx => nth idx values 0) indices in
  match neighbor_heights with
  | [] => height
  | v :: vs =>
      let smallest_neighbor := py_min v vs in
      if Qlt_bool threshold (Qabs (height - smallest_neighbor))
      then smallest_neighbor
      else height
  end.

(** One iteration of the loop of line 92. *)
Definition process_item (kdtree : list (Q * Q)) (values : list Q)
    (x_bins y_bins : list Q) (threshold : Q)
    (processed_height_map : dict Q) (item : cell * option Q) : dict Q :=
  match snd item with
  | None => processed_height_map
  | Some height =>
      dict_set (fst item)
        (processed_height kdtree values x_bins y_bins threshold
           (fst item) height)
        processed_height_map
  end.

(** Lines 79-116 on a given raw map. *)
Definition post_process (height_map : dict (option Q))
    (x_bins y_bins : list Q) (threshold : Q) : outcome (dict Q) :=
  let values := grid_values height_map in
  kdtree <- cKDTree (grid_centers height_map x_bins y_bins) ;;
  Returned (fold_left (process_item kdtree values x_bins y_bins threshold)
              height_map []).

Definition calculate_height_map (points : list tpoint)
    (x_bins y_bins : list Q) (threshold : Q) : outcome (dict Q) :=
  height_map <- raw_height_map points x_bins y_bins ;;
  post_process height_map x_bins y_bins threshold.

(** ** 3. Floor / non-floor classifier (script lines 207-221) *)

(** The loop over [enumerate(transformed_points)], from index [idx]. *)
Fixpoint classify_from (idx : nat) (points : list tpoint)
    (x_bins y_bins : list Q) (hm : dict Q) (threshold : Q) : list nat :=
  match points with
  | [] => []
  | p :: rest =>
      let x_idx := (searchsorted_right x_bins (px p) - 1)%Z in
      let y_idx := (searchsorted_right y_bins (py p) - 1)%Z in
      let later := classify_from (S idx) rest x_bins y_bins hm threshold in
      if (valid_index x_bins x_idx && valid_index y_bins y_idx)%bool then
        match dict_get (x_idx, y_idx) hm with
        | Some smoothed_height =>
            if Qlt_bool threshold (Qabs (pz p - smoothed_height))
            then idx :: later
            else later
        | None => later
        end
      else later
  end.

Definition non_floor_indices (points : list tpoint) (x_bins y_bins : list Q)
    (hm : dict Q) (threshold : Q) : list nat :=
  classify_from 0 points x_bins y_bins hm threshold.

(** [set(range(len(transformed_points))) - set(non_floor_indices)] *)
Definition floor_indices (points : list tpoint) (non_floor : list nat)
    : list nat :=
  filter (fun idx => negb (existsb (Nat.eqb idx) non_floor))
    (seq 0 (length points)).

End GridCode.

(** ** Vocabulary of the specification *)

Section SpecVocabulary.
Local Open Scope Q_scope.

(** Right-open interval membership: cell [i] of an axis holds [x] iff
    [bins[i] <= x < bins[i+1]], for [i] a cell of the grid. *)
Definition right_open_cell (bins : list Q) (x : Q) (i : Z) : Prop :=
  (0 <= i < Z.of_nat (length bins) - 1)%Z /\
  bin_edge bins i <= x /\ x < bin_edge bins (i + 1).

(** The point falls inside the grid extent: it has a cell on each axis. *)
Definition inside_grid (x_bins y_bins : list Q) (p : tpoint) : Prop :=
  exists i j, right_open_cell x_bins (px p) i /\
              right_open_cell y_bins (py p) j.

(** Bin edges in strictly ascending order, as [np.arange] builds them. *)
Fixpoint strictly_ascending (l : list Q) : bool :=
  match l with
  | a :: ((b :: _) as t) => Qlt_bool a b && strictly_ascending t
  | _ => true
  end.

(** The z-values that bucketing sends to cell [c], in frame order. *)
Definition cell_z_values (entries : list (Q * Z * Z)) (c : cell) : list Q :=
  map (fun e : Q * Z * Z => fst (fst e))
    (filter (fun e : Q * Z * Z => cell_eqb (snd (fst e), snd e) c) entries).

(** Median of an ascending list. *)
Definition median (sorted : list Q) : Q :=
  let n := length sorted in
  if Nat.even n
  then (nth (n / 2 - 1) sorted 0 + nth (n / 2) sorted 0) / 2
  else nth (n / 2) sorted 0.

(** [m] is a least element of the values satisfying [P]. *)
Definition is_minimum (P : Q -> Prop) (m : Q) : Prop :=
  P m /\ forall v, P v -> m <= v.

(** [v] is the raw estimate of an occupied cell whose centre lies within
    distance [r] of the centre of [c]. *)
Definition neighbor_estimate (raw : dict (option Q)) (x_bins y_bins : list Q)
    (r : Q) (c : cell) (v : Q) : Prop :=
  exists c', dict_get c' raw = Some (Some v) /\
             within_radius r (grid_center x_bins y_bins c')
               (grid_center x_bins y_bins c) = true.

(** The smoothing rule with search radius [r]: snap to the neighbourhood
    minimum [m] when [|h - m|] exceeds the threshold, else keep [h]. *)
Definition smoothing_rule (raw : dict (option Q)) (x_bins y_bins : list Q)
    (r threshold : Q) (c : cell) (h v : Q) : Prop :=
  exists m, is_minimum (neighbor_estimate raw x_bins y_bins r c) m /\
            v = if Qlt_bool threshold (Qabs (h - m)) then m else h.

(** A returned height map handed to the smoothing pass a second time: the
    same cells, every estimate present. *)
Definition as_raw (hm : dict Q) : dict (option Q) :=
  map (fun kv : cell * Q => (fst kv, Some (snd kv))) hm.

(** A search radius of one grid-resolution unit. *)
Definition resolution_radius (grid_resolution : Q) : Q := 1 * grid_resolution.

(** The indices the classifier leaves unclassified: the cell is outside
    the grid bounds or has no estimate in the height map. *)
Fixpoint excluded_from (idx : nat) (points : list tpoint)
    (x_bins y_bins : list Q) (hm : dict Q) : list nat :=
  match points with
  | [] => []
  | p :: rest =>
      let x_idx := (searchsorted_right x_bins (px p) - 1)%Z in
      let y_idx := (searchsorted_right y_bins (py p) - 1)%Z in
      let later := excluded_from (S idx) rest x_bins y_bins hm in
      if (valid_index x_bins x_idx && valid_index y_bins y_idx)%bool then
        match dict_get (x_idx, y_idx) hm with
        | Some _ => later
        | None => idx :: later
        end
      else idx :: later
  end.

Definition excluded_indices (points : list tpoint) (x_bins y_bins : list Q)
    (hm : dict Q) : list nat :=
  excluded_from 0 points x_bins y_bins hm.

(** The test of lines 211-215 on one point. *)
Definition marks_non_floor (x_bins y_bins : list Q) (hm : dict Q)
    (threshold : Q) (p : tpoint) : Prop :=
  let x_idx := (searchsorted_right x_bins (px p) - 1)%Z in
  let y_idx := (searchsorted_right y_bins (py p) - 1)%Z in
  (valid_index x_bins x_idx && valid_index y_bins y_idx)%bool = true /\
  exists h, dict_get (x_idx, y_idx) hm = Some h /\
            threshold < Qabs (pz p - h).

(** The point is skipped by the classifier: no cell, or no estimate. *)
Definition leaves_unclassified (x_bins y_bins : list Q) (hm : dict Q)
    (p : tpoint) : Prop :=
  let x_idx := (searchsorted_right x_bins (px p) - 1)%Z in
  let y_idx := (searchsorted_right y_bins (py p) - 1)%Z in
  (valid_index x_bins x_idx && valid_index y_bins y_idx)%bool = false \/
  dict_get (x_idx, y_idx) hm = None.

Definition disjoint (l1 l2 : list nat) : Prop :=
  forall i, In i l1 -> In i l2 -> False.

(** Three pairwise disjoint sets that cover the index range [0, n). *)
Definition three_way_partition (n : nat) (s1 s2 s3 : list nat) : Prop :=
  (forall i, (i < n)%nat <-> In i s1 \/ In i s2 \/ In i s3) /\
  disjoint s1 s2 /\ disjoint s1 s3 /\ disjoint s2 s3.

End SpecVocabulary.

(** ** 4. The rest of the script *)

Section ProjectionCode.
Local Open Scope R_scope.

(** Lines 29-30: the projected point of one row, all three coordinates;
    [transform_row] keeps the first two. *)
Definition projected_row (a b c d : R) (p : point) : transformed_point :=
  let '(x, y, z) := p in
  let normal_norm := linalg_norm a b c in
  let distance := np_div (a * x + b * y + c * z + d) (normal_norm ^ 2) in
  (np_sub x (np_mul distance a),
   np_sub y (np_mul distance b),
   np_sub z (np_mul distance c)).

End ProjectionCode.

(** Outcome of the script's segmentation stage: besides the exceptions of
    the builder, [np.min] raises ValueError on a zero-size array. *)
Inductive script_outcome (A : Type) : Type :=
| Completed (v : A)
| ValueError_reduction
| Builder_raised (e : exn).
Arguments Completed {A} v.
Arguments ValueError_reduction {A}.
Arguments Builder_raised {A} e.

Section ScriptCode.
Local Open Scope Q_scope.

(** [np.min] and [np.max] of a non-empty column. *)
Definition np_min (first : Q) (rest : list Q) : Q := py_min first rest.

Definition np_max (first : Q) (rest : list Q) : Q :=
  fold_left (fun m v => if Qlt_bool m v then v else m) rest first.

(** [np.arange(start, stop, step)] for a positive step:
    ceil((stop - start) / step) values [start + i * step]. *)
Definition arange (start stop step : Q) : list Q :=
  map (fun i => start + inject_Z (Z.of_nat i) * step)
    (seq 0 (Z.to_nat (Qceiling ((stop - start) / step)))).

(** Lines 196-200: the bin edges of a non-empty frame. *)
Definition frame_bins (p : tpoint) (rest : list tpoint)
    (grid_resolution : Q) : list Q * list Q :=
  let x_min := np_min (px p) (map px rest) in
  let y_min := np_min (py p) (map py rest) in
  let x_max := np_max (px p) (map px rest) in
  let y_max := np_max (py p) (map py rest) in
  (arange x_min x_max grid_resolution, arange y_min y_max grid_resolution).

(** Lines 195-221.  The script binds [grid_resolution = 0.3], the builder's
    threshold to 0.05 and the classifier's to 0.15; the result is
    [(non_floor_indices, floor_indices)]. *)
Definition segment_frame (transformed_points : list tpoint)
    (grid_resolution map_threshold threshold : Q)
    : script_outcome (list nat * list nat) :=
  match transformed_points with
  | [] => ValueError_reduction
  | p :: rest =>
      let '(x_bins, y_bins) := frame_bins p rest grid_resolution in
      match calculate_height_map transformed_points x_bins y_bins
              map_threshold with
      | Raised e => Builder_raised e
      | Returned hm =>
          let non_floor :=
            non_floor_indices transformed_points x_bins y_bins hm threshold in
          Completed (non_floor, floor_indices transformed_points non_floor)
      end
  end.

(** *** cluster_non_floor_points (lines 118-141) *)

(** [labels.max()]; numpy raises ValueError on a zero-size array. *)
Definition labels_max (labels : list Z) : option Z :=
  match labels with
  | [] => None
  | l :: ls => Some (fold_left Z.max ls l)
  end.

(** [np.where(labels == cluster_id)[0]] *)
Definition where_equal (labels : list Z) (cluster_id : Z) : list nat :=
  filter (fun i => (nth i labels 0 =? cluster_id)%Z) (seq 0 (length labels)).

(** The function after the DBSCAN call, on the label array that the call
    returns (one label per point, a negative label for noise).  A cluster
    is given by the index array handed to [select_by_index].  [None] is
    the ValueError of [labels.max()]. *)
Definition cluster_non_floor_points (labels : list Z)
    : option (list (list nat) * list Z) :=
  match labels_max labels with
  | None => None
  | Some max_label =>
      Some (map (fun cluster_id => where_equal labels (Z.of_nat cluster_id))
              (seq 0 (Z.to_nat (max_label + 1))),
            labels)
  end.

(** [x] lies in the extent that the edges cover, from the first edge
    (included) to the last (excluded). *)
Definition in_extent (bins : list Q) (x : Q) : Prop :=
  (2 <= length bins)%nat /\
  nth 0 bins 0 <= x /\ x < nth (length bins - 1) bins 0.

End ScriptCode.

(** * Properties of the transformer *)

Section TransformerFacts.
Local Open Scope R_scope.

Lemma sum_squares_pos (a b c : R) :
  (a, b, c) <> (0, 0, 0) -> 0 < a * a + b * b + c * c.
Proof.
  intros Hn.
  destruct (Req_dec_T a 0) as [Ha | Ha].
  - destruct (Req_dec_T b 0) as [Hb | Hb].
    + destruct (Req_dec_T c 0) as [Hc | Hc].
      * exfalso. apply Hn. subst. reflexivity.
      * assert (0 < c * c) by nra. nra.
    + assert (0 < b * b) by nra. nra.
  - assert (0 < a * a) by nra. nra.
Qed.

Lemma linalg_norm_pos (a b c : R) :
  (a, b, c) <> (0, 0, 0) -> 0 < linalg_norm a b c.
Proof.
  intros Hn. unfold linalg_norm. apply sqrt_lt_R0. now apply sum_squares_pos.
Qed.

Lemma linalg_norm_sqr (a b c : R) :
  linalg_norm a b c ^ 2 = a * a + b * b + c * c.
Proof.
  unfold linalg_norm. simpl. rewrite Rmult_1_r. apply sqrt_sqrt. nra.
Qed.

Lemma linalg_norm_zero : linalg_norm 0 0 0 = 0.
Proof.
  unfold linalg_norm.
  replace (0 * 0 + 0 * 0 + 0 * 0) with 0 by ring. apply sqrt_0.
Qed.

Lemma np_div_nonzero (x y : R) : y <> 0 -> np_div x y = Fin (x / y).
Proof.
  intros Hy. unfold np_div.
  destruct (Req_dec_T y 0); [contradiction | reflexivity].
Qed.

Lemma np_div_zero (x : R) : np_div x 0 = NonFin.
Proof.
  unfold np_div.
  destruct (Req_dec_T 0 0) as [_ | H]; [reflexivity | now elim H].
Qed.

Lemma transform_row_nonzero (a b c d : R) (p : point) :
  (a, b, c) <> (0, 0, 0) ->
  let '(x, y, z) := p in
  let s := plane_value a b c d p in
  let n := linalg_norm a b c in
  transform_row a b c d p =
    (Fin (x - s / n ^ 2 * a), Fin (y - s / n ^ 2 * b), Fin (s / n)).
Proof.
  intros Hn. destruct p as [[x y] z]. cbv zeta.
  pose proof (linalg_norm_pos a b c Hn) as Hpos.
  unfold transform_row, plane_value.
  rewrite !np_div_nonzero.
  - reflexivity.
  - lra.
  - rewrite linalg_norm_sqr. pose proof (sum_squares_pos a b c Hn). lra.
Qed.

Lemma transform_row_zero_normal (d : R) (p : point) :
  transform_row 0 0 0 d p = (NonFin, NonFin, NonFin).
Proof.
  destruct p as [[x y] z]. unfold transform_row.
  rewrite linalg_norm_zero.
  replace (0 ^ 2) with 0 by (simpl; ring).
  rewrite !np_div_zero. reflexivity.
Qed.

(** C1. With a nonzero normal the transformer returns N index-aligned
    points; the point at index [i] is (x', y', z') with (x', y') the first
    two coordinates of p - (s(p) / |n|^2) n and z' = s(p) / |n|, where
    |n|^2 = a^2 + b^2 + c^2; z' has the sign of s(p), and a point on the
    plane is sent to (x, y, 0). *)
Theorem transform_nonzero_normal (points : list point) (a b c d : R) :
  (a, b, c) <> (0, 0, 0) ->
  exists out,
    transform_to_plane_based_coordinates points a b c d = Returned out /\
    length out = length points /\
    forall i x y z,
      nth_error points i = Some (x, y, z) ->
      let s := plane_value a b c d (x, y, z) in
      let n := linalg_norm a b c in
      n ^ 2 = a * a + b * b + c * c /\ 0 < n /\
      nth_error out i =
        Some (Fin (x - s / n ^ 2 * a), Fin (y - s / n ^ 2 * b), Fin (s / n)) /\
      (0 < s -> 0 < s / n) /\
      (s < 0 -> s / n < 0) /\
      (s = 0 -> nth_error out i = Some (Fin x, Fin y, Fin 0)).
Proof.
  intros Hn.
  exists (map (transform_row a b c d) points).
  split; [reflexivity | ].
  split; [apply length_map | ].
  intros i x y z Hi s n.
  pose proof (linalg_norm_pos a b c Hn) as Hpos. fold n in Hpos.
  assert (Hout : nth_error (map (transform_row a b c d) points) i =
                 Some (Fin (x - s / n ^ 2 * a), Fin (y - s / n ^ 2 * b),
                       Fin (s / n))).
  { rewrite nth_error_map, Hi. cbn [option_map].
    pose proof (transform_row_nonzero a b c d (x, y, z) Hn) as Hrow.
    cbv beta iota zeta in Hrow. rewrite Hrow. reflexivity. }
  split; [apply linalg_norm_sqr | ].
  split; [exact Hpos | ].
  split; [exact Hout | ].
  split; [intros Hs; now apply Rdiv_lt_0_compat | ].
  split.
  - intros Hs. unfold Rdiv.
    assert (0 < / n) by now apply Rinv_0_lt_compat. nra.
  - intros Hs. rewrite Hout. rewrite Hs. unfold Rdiv.
    rewrite !Rmult_0_l, !Rminus_0_r. reflexivity.
Qed.

Lemma transform_nonzero_normal_witness :
  (0, 0, 1) <> (0, 0, 0) /\
  exists out,
    transform_to_plane_based_coordinates [(1, 2, 3)] 0 0 1 0 = Returned out /\
    length out = 1%nat.
Proof.
  assert (Hn : (0, 0, 1) <> (0, 0, 0)).
  { intros H. injection H as H. lra. }
  split; [exact Hn | ].
  destruct (transform_nonzero_normal [(1, 2, 3)] 0 0 1 0 Hn)
    as [out [Hout [Hlen _]]].
  exists out. split; [exact Hout | exact Hlen].
Defined.

(** C7 as stated fails: with the zero normal the transformer returns. *)
Lemma transform_zero_normal_returns :
  ~ exists e,
      transform_to_plane_based_coordinates [(1, 2, 3)] 0 0 0 4 = Raised e.
Proof.
  intros [e H]. discriminate H.
Qed.

(** C7, amended.  The transformer has no check of the normal: for
    (a, b, c) = (0, 0, 0) it raises nothing and returns N index-aligned
    points whose three coordinates are all non-finite. *)
Theorem transform_zero_normal (points : list point) (d : R) :
  transform_to_plane_based_coordinates points 0 0 0 d =
    Returned (map (fun _ => (NonFin, NonFin, NonFin)) points) /\
  (forall e, transform_to_plane_based_coordinates points 0 0 0 d <> Raised e).
Proof.
  split; [ | intros e H; discriminate H].
  unfold transform_to_plane_based_coordinates. f_equal.
  apply map_ext. intros p. apply transform_row_zero_normal.
Qed.

End TransformerFacts.

(** * Properties of the grid code *)

Section BinningFacts.
Local Open Scope Q_scope.

Lemma Qlt_bool_iff (a b : Q) : Qlt_bool a b = true <-> a < b.
Proof.
  unfold Qlt_bool. rewrite negb_true_iff. split.
  - intros H. apply Qnot_le_lt. intros Hle.
    apply Qle_bool_iff in Hle. congruence.
  - intros H. destruct (Qle_bool b a) eqn:E; [ | reflexivity].
    apply Qle_bool_iff in E. exfalso. now apply (Qle_not_lt _ _ E).
Qed.

Lemma Qlt_bool_false (a b : Q) : Qlt_bool a b = false <-> b <= a.
Proof.
  unfold Qlt_bool. rewrite negb_false_iff. apply Qle_bool_iff.
Qed.

Lemma nondecreasing_tail (a : Q) (t : list Q) :
  nondecreasing (a :: t) = true -> nondecreasing t = true.
Proof.
  destruct t as [ | b t]; [reflexivity | ].
  cbn [nondecreasing]. intros H. now apply andb_true_iff in H.
Qed.

Lemma nondecreasing_head_le (t : list Q) :
  forall a, nondecreasing (a :: t) = true -> forall x, In x t -> a <= x.
Proof.
  induction t as [ | b t IH]; intros a H x Hx; [contradiction | ].
  cbn [nondecreasing] in H. apply andb_true_iff in H. destruct H as [Hab Ht].
  apply Qle_bool_iff in Hab. destruct Hx as [-> | Hx]; [exact Hab | ].
  apply Qle_trans with b; [exact Hab | now apply IH].
Qed.

Lemma nondecreasing_nth (l : list Q) :
  nondecreasing l = true ->
  forall i j, (i <= j < length l)%nat -> nth i l 0 <= nth j l 0.
Proof.
  induction l as [ | a t IH]; intros H i j Hij; [simpl in Hij; lia | ].
  destruct i as [ | i], j as [ | j]; cbn [nth].
  - apply Qle_refl.
  - apply (nondecreasing_head_le t a H). apply nth_In. simpl in Hij. lia.
  - lia.
  - apply IH; [now apply nondecreasing_tail in H | simpl in Hij; lia].
Qed.

Lemma strictly_ascending_nondecreasing (l : list Q) :
  strictly_ascending l = true -> nondecreasing l = true.
Proof.
  induction l as [ | a t IH]; [reflexivity | ].
  destruct t as [ | b t]; [reflexivity | ].
  cbn [strictly_ascending nondecreasing]. intros H.
  apply andb_true_iff in H. destruct H as [Hab Ht].
  apply andb_true_iff. split; [ | now apply IH].
  apply Qle_bool_iff, Qlt_le_weak. now apply Qlt_bool_iff.
Qed.

Lemma strictly_ascending_nth (l : list Q) :
  strictly_ascending l = true ->
  forall i j, (i < j < length l)%nat -> nth i l 0 < nth j l 0.
Proof.
  induction l as [ | a t IH]; intros H i j Hij; [simpl in Hij; lia | ].
  assert (Ht : strictly_ascending t = true).
  { destruct t as [ | b t]; [reflexivity | ].
    cbn [strictly_ascending] in H. now apply andb_true_iff in H. }
  destruct j as [ | j]; [lia | ].
  destruct i as [ | i]; cbn [nth].
  - destruct t as [ | b t]; [simpl in Hij; lia | ].
    cbn [strictly_ascending] in H. apply andb_true_iff in H.
    destruct H as [Hab _]. apply Qlt_bool_iff in Hab.
    apply Qlt_le_trans with b; [exact Hab | ].
    change b with (nth 0 (b :: t) 0).
    apply nondecreasing_nth;
      [now apply strictly_ascending_nondecreasing | simpl in *; lia].
  - apply IH; [exact Ht | simpl in Hij; lia].
Qed.

(** The binary search, started on an interval that brackets the answer,
    stops at the number of edges that are [<= key]. *)
Lemma binsearch_right_spec (arr : list Q) (key : Q) :
  nondecreasing arr = true ->
  forall fuel lo hi,
    (hi - lo <= fuel)%nat ->
    (lo <= hi <= length arr)%nat ->
    (forall i, (i < lo)%nat -> nth i arr 0 <= key) ->
    (forall i, (hi <= i < length arr)%nat -> key < nth i arr 0) ->
    let r := binsearch_right fuel arr key lo hi in
    (lo <= r <= hi)%nat /\
    (forall i, (i < r)%nat -> nth i arr 0 <= key) /\
    (forall i, (r <= i < length arr)%nat -> key < nth i arr 0).
Proof.
  intros Hmono. induction fuel as [ | fuel IH]; intros lo hi Hfuel Hb Hlo Hhi.
  - cbn [binsearch_right]. assert (lo = hi) by lia. subst hi.
    split; [lia | split; assumption].
  - cbn [binsearch_right]. destruct (lo <? hi)%nat eqn:Hlt.
    + apply Nat.ltb_lt in Hlt.
      set (mid := (lo + (hi - lo) / 2)%nat).
      assert (Hmid : (lo <= mid < hi)%nat).
      { unfold mid. pose proof (Nat.div_lt (hi - lo) 2). lia. }
      assert (Hhalf : (2 * ((hi - lo) / 2) <= hi - lo)%nat)
        by (apply Nat.Div0.mul_div_le).
      destruct (Qlt_bool key (nth mid arr 0)) eqn:Hcmp.
      * apply Qlt_bool_iff in Hcmp.
        destruct (IH lo mid) as [Hr [Hbelow Habove]].
        -- lia.
        -- lia.
        -- exact Hlo.
        -- intros i Hi. apply Qlt_le_trans with (nth mid arr 0);
             [exact Hcmp | apply nondecreasing_nth; [exact Hmono | lia]].
        -- split; [lia | split; assumption].
      * apply Qlt_bool_false in Hcmp.
        destruct (IH (S mid) hi) as [Hr [Hbelow Habove]].
        -- unfold mid in *. lia.
        -- lia.
        -- intros i Hi. apply Qle_trans with (nth mid arr 0);
             [apply nondecreasing_nth; [exact Hmono | lia] | exact Hcmp].
        -- exact Hhi.
        -- split; [lia | split; assumption].
    + apply Nat.ltb_ge in Hlt. assert (lo = hi) by lia. subst hi.
      split; [lia | split; assumption].
Qed.

Lemma searchsorted_right_spec (arr : list Q) (key : Q) :
  nondecreasing arr = true ->
  exists r : nat,
    searchsorted_right arr key = Z.of_nat r /\
    (r <= length arr)%nat /\
    (forall i, (i < r)%nat -> nth i arr 0 <= key) /\
    (forall i, (r <= i < length arr)%nat -> key < nth i arr 0).
Proof.
  intros Hmono.
  destruct (binsearch_right_spec arr key Hmono (length arr) 0 (length arr))
    as [Hr [Hbelow Habove]]; try lia.
  exists (binsearch_right (length arr) arr key 0 (length arr)).
  split; [reflexivity | ]. split; [lia | ]. split; assumption.
Qed.

Lemma valid_index_iff (bins : list Q) (i : Z) :
  valid_index bins i = true <-> (0 <= i < Z.of_nat (length bins) - 1)%Z.
Proof.
  unfold valid_index. rewrite andb_true_iff, Z.leb_le, Z.ltb_lt. tauto.
Qed.

(** On ascending edges, "last edge [<=] value" is right-open interval
    membership. *)
Lemma searchsorted_right_open_cell (bins : list Q) (x : Q) (i : Z) :
  nondecreasing bins = true ->
  ((searchsorted_right bins x - 1)%Z = i /\ valid_index bins i = true) <->
  right_open_cell bins x i.
Proof.
  intros Hmono.
  destruct (searchsorted_right_spec bins x Hmono)
    as [r [Hr [Hlen [Hbelow Habove]]]].
  rewrite Hr, valid_index_iff. unfold right_open_cell, bin_edge. split.
  - intros [Hi Hv]. subst i. split; [exact Hv | ]. split.
    + apply Hbelow. lia.
    + apply Habove. lia.
  - intros [Hv [Hle Hlt]]. split; [ | exact Hv].
    destruct (Nat.le_gt_cases r (Z.to_nat i)) as [Hc | Hc].
    + exfalso. apply (Qle_not_lt _ _ Hle). apply Habove. lia.
    + destruct (Nat.le_gt_cases r (Z.to_nat (i + 1))) as [Hc' | Hc'].
      * lia.
      * exfalso. apply (Qle_not_lt _ _ (Hbelow _ Hc')). exact Hlt.
Qed.

Lemma monotonicity_ascending (bins : list Q) :
  nondecreasing bins = true -> monotonicity bins = 1%Z.
Proof.
  intros H. unfold monotonicity. now rewrite H.
Qed.

Lemma digitize_ascending (xs bins : list Q) :
  nondecreasing bins = true ->
  digitize xs bins = Returned (map (searchsorted_right bins) xs).
Proof.
  intros H. unfold digitize. rewrite (monotonicity_ascending bins H).
  reflexivity.
Qed.

End BinningFacts.

Section ClassifierFacts.
Local Open Scope Q_scope.

Variables (x_bins y_bins : list Q) (hm : dict Q) (threshold : Q).

Lemma classify_from_In (points : list tpoint) :
  forall start idx,
    In idx (classify_from start points x_bins y_bins hm threshold) <->
    (start <= idx)%nat /\
    exists p, nth_error points (idx - start) = Some p /\
              marks_non_floor x_bins y_bins hm threshold p.
Proof.
  induction points as [ | p rest IH]; intros start idx.
  - cbn [classify_from]. split; [contradiction | ].
    intros [_ [q [Hq _]]]. destruct (idx - start)%nat; discriminate Hq.
  - cbn [classify_from].
    set (xi := (searchsorted_right x_bins (px p) - 1)%Z).
    set (yi := (searchsorted_right y_bins (py p) - 1)%Z).
    assert (Hlater :
      In idx (classify_from (S start) rest x_bins y_bins hm threshold) <->
      (start < idx)%nat /\
      exists q, nth_error (p :: rest) (idx - start) = Some q /\
                marks_non_floor x_bins y_bins hm threshold q).
    { rewrite IH. split.
      - intros [Hle [q [Hq Hm]]]. split; [lia | ].
        exists q. split; [ | exact Hm].
        replace (idx - start)%nat with (S (idx - S start)) by lia. exact Hq.
      - intros [Hlt [q [Hq Hm]]]. split; [lia | ].
        exists q. split; [ | exact Hm].
        replace (idx - start)%nat with (S (idx - S start)) in Hq by lia.
        exact Hq. }
    assert (Hhead : forall q, (start <= idx)%nat ->
      nth_error (p :: rest) (idx - start) = Some q ->
      idx = start /\ q = p \/ (start < idx)%nat).
    { intros q Hle Hq. destruct (Nat.eq_dec idx start) as [-> | Hne].
      - left. split; [reflexivity | ]. rewrite Nat.sub_diag in Hq.
        now injection Hq as <-.
      - right. lia. }
    assert (Hskip :
      ~ marks_non_floor x_bins y_bins hm threshold p ->
      (In idx (classify_from (S start) rest x_bins y_bins hm threshold) <->
       (start <= idx)%nat /\
       exists q, nth_error (p :: rest) (idx - start) = Some q /\
                 marks_non_floor x_bins y_bins hm threshold q)).
    { intros Hno. rewrite Hlater. split.
      - intros [Hlt Hq]. split; [lia | exact Hq].
      - intros [Hle [q [Hq Hm]]].
        destruct (Hhead q Hle Hq) as [[-> ->] | Hlt]; [contradiction | ].
        split; [exact Hlt | ]. exists q. now split. }
    destruct (valid_index x_bins xi && valid_index y_bins yi)%bool eqn:Hv.
    + destruct (dict_get (xi, yi) hm) as [h | ] eqn:Hget.
      * destruct (Qlt_bool threshold (Qabs (pz p - h))) eqn:Hcmp.
        -- cbn [In]. rewrite Hlater. split.
           ++ intros [<- | [Hlt Hq]].
              ** split; [lia | ]. exists p. rewrite Nat.sub_diag.
                 split; [reflexivity | ]. split; [exact Hv | ].
                 exists h. split; [exact Hget | now apply Qlt_bool_iff].
              ** split; [lia | exact Hq].
           ++ intros [Hle [q [Hq Hm]]].
              destruct (Hhead q Hle Hq) as [[-> ->] | Hlt]; [now left | ].
              right. split; [exact Hlt | ]. exists q. now split.
        -- apply Hskip. intros [_ [h' [Hh' Hlt]]].
           fold xi yi in Hh'. rewrite Hget in Hh'. injection Hh' as <-.
           apply Qlt_bool_iff in Hlt. congruence.
      * apply Hskip. intros [_ [h' [Hh' _]]].
        fold xi yi in Hh'. congruence.
    + apply Hskip. intros [Hv' _]. fold xi yi in Hv'. congruence.
Qed.

Lemma excluded_from_In (points : list tpoint) :
  forall start idx,
    In idx (excluded_from start points x_bins y_bins hm) <->
    (start <= idx)%nat /\
    exists p, nth_error points (idx - start) = Some p /\
              leaves_unclassified x_bins y_bins hm p.
Proof.
  induction points as [ | p rest IH]; intros start idx.
  - cbn [excluded_from]. split; [contradiction | ].
    intros [_ [q [Hq _]]]. destruct (idx - start)%nat; discriminate Hq.
  - cbn [excluded_from].
    set (xi := (searchsorted_right x_bins (px p) - 1)%Z).
    set (yi := (searchsorted_right y_bins (py p) - 1)%Z).
    assert (Hlater :
      In idx (excluded_from (S start) rest x_bins y_bins hm) <->
      (start < idx)%nat /\
      exists q, nth_error (p :: rest) (idx - start) = Some q /\
                leaves_unclassified x_bins y_bins hm q).
    { rewrite IH. split.
      - intros [Hle [q [Hq Hm]]]. split; [lia | ].
        exists q. split; [ | exact Hm].
        replace (idx - start)%nat with (S (idx - S start)) by lia. exact Hq.
      - intros [Hlt [q [Hq Hm]]]. split; [lia | ].
        exists q. split; [ | exact Hm].
        replace (idx - start)%nat with (S (idx - S start)) in Hq by lia.
        exact Hq. }
    assert (Hhead : forall q, (start <= idx)%nat ->
      nth_error (p :: rest) (idx - start) = Some q ->
      idx = start /\ q = p \/ (start < idx)%nat).
    { intros q Hle Hq. destruct (Nat.eq_dec idx start) as [-> | Hne].
      - left. split; [reflexivity | ]. rewrite Nat.sub_diag in Hq.
        now injection Hq as <-.
      - right. lia. }
    assert (Hkeep :
      leaves_unclassified x_bins y_bins hm p ->
      (In idx (start :: excluded_from (S start) rest x_bins y_bins hm) <->
       (start <= idx)%nat /\
       exists q, nth_error (p :: rest) (idx - start) = Some q /\
                 leaves_unclassified x_bins y_bins hm q)).
    { intros Hyes. cbn [In]. rewrite Hlater. split.
      - intros [<- | [Hlt Hq]].
        + split; [lia | ]. exists p. rewrite Nat.sub_diag. now split.
        + split; [lia | exact Hq].
      - intros [Hle [q [Hq Hm]]].
        destruct (Hhead q Hle Hq) as [[-> ->] | Hlt]; [now left | ].
        right. split; [exact Hlt | ]. exists q. now split. }
    destruct (valid_index x_bins xi && valid_index y_bins yi)%bool eqn:Hv.
    + destruct (dict_get (xi, yi) hm) as [h | ] eqn:Hget.
      * rewrite Hlater. split.
        -- intros [Hlt Hq]. split; [lia | exact Hq].
        -- intros [Hle [q [Hq Hm]]].
           destruct (Hhead q Hle Hq) as [[-> ->] | Hlt].
           ++ exfalso. destruct Hm as [Hm | Hm]; fold xi yi in Hm; congruence.
           ++ split; [exact Hlt | ]. exists q. now split.
      * apply Hkeep. right. exact Hget.
    + apply Hkeep. left. exact Hv.
Qed.

End ClassifierFacts.

Section ClassifierClaims.
Local Open Scope Q_scope.

Lemma existsb_eqb_In (idx : nat) (l : list nat) :
  existsb (Nat.eqb idx) l = true <-> In idx l.
Proof.
  rewrite existsb_exists. split.
  - intros [x [Hx Heq]]. apply Nat.eqb_eq in Heq. now subst.
  - intros H. exists idx. split; [exact H | apply Nat.eqb_refl].
Qed.

Lemma floor_indices_In (points : list tpoint) (non_floor : list nat)
    (idx : nat) :
  In idx (floor_indices points non_floor) <->
  (idx < length points)%nat /\ ~ In idx non_floor.
Proof.
  unfold floor_indices. rewrite filter_In, in_seq, negb_true_iff.
  rewrite <- existsb_eqb_In.
  destruct (existsb (Nat.eqb idx) non_floor); split; intros [H1 H2];
    (split; [lia | congruence]).
Qed.

Lemma non_floor_not_unclassified (x_bins y_bins : list Q) (hm : dict Q)
    (threshold : Q) (p : tpoint) :
  marks_non_floor x_bins y_bins hm threshold p ->
  leaves_unclassified x_bins y_bins hm p -> False.
Proof.
  intros [Hv [h [Hget _]]] [Hv' | Hnone]; congruence.
Qed.



(** C4. On ascending bin edges, the point at index [idx] is in the
    non-floor list iff its cell (i, j), found by right-open binning of
    (x', y'), is a cell of the grid, has an estimate in the height map, and
    |z' - estimate| > threshold; a point whose cell is outside the grid or
    has no estimate is never in the list. *)
Theorem non_floor_iff (points : list tpoint) (x_bins y_bins : list Q)
    (hm : dict Q) (threshold : Q) (idx : nat) :
  nondecreasing x_bins = true ->
  nondecreasing y_bins = true ->
  (In idx (non_floor_indices points x_bins y_bins hm threshold) <->
   exists p i j h,
     nth_error points idx = Some p /\
     right_open_cell x_bins (px p) i /\
     right_open_cell y_bins (py p) j /\
     dict_get (i, j) hm = Some h /\
     threshold < Qabs (pz p - h)) /\
  (forall p, nth_error points idx = Some p ->
             leaves_unclassified x_bins y_bins hm p ->
             ~ In idx (non_floor_indices points x_bins y_bins hm threshold)).
Proof.
  intros Hx Hy. unfold non_floor_indices. split.
  - rewrite classify_from_In, Nat.sub_0_r. split.
    + intros [_ [p [Hp [Hv [h [Hget Hlt]]]]]].
      apply andb_true_iff in Hv. destruct Hv as [Hvx Hvy].
      exists p, (searchsorted_right x_bins (px p) - 1)%Z,
             (searchsorted_right y_bins (py p) - 1)%Z, h.
      split; [exact Hp | ].
      split; [now apply searchsorted_right_open_cell | ].
      split; [now apply searchsorted_right_open_cell | ].
      split; assumption.
    + intros [p [i [j [h [Hp [Hi [Hj [Hget Hlt]]]]]]]].
      apply searchsorted_right_open_cell in Hi; [ | exact Hx].
      apply searchsorted_right_open_cell in Hj; [ | exact Hy].
      destruct Hi as [Hi Hvi], Hj as [Hj Hvj].
      split; [lia | ]. exists p. split; [exact Hp | ].
      unfold marks_non_floor. cbv zeta. rewrite Hi, Hj, Hvi, Hvj.
      split; [reflexivity | ]. exists h. now split.
  - intros p Hp Hex Hin.
    apply classify_from_In in Hin. rewrite Nat.sub_0_r in Hin.
    destruct Hin as [_ [q [Hq Hm]]]. rewrite Hp in Hq. injection Hq as <-.
    exact (non_floor_not_unclassified _ _ _ _ _ Hm Hex).
Qed.

Lemma non_floor_iff_witness :
  nondecreasing [0; 1] = true /\
  nondecreasing [0; 1] = true /\
  In 1%nat (non_floor_indices [(1 # 2, 1 # 2, 0); (1 # 2, 1 # 2, 1)]
              [0; 1] [0; 1] [((0%Z, 0%Z), 0)] (15 # 100)).
Proof.
  split; [reflexivity | ]. split; [reflexivity | ].
  apply (non_floor_iff [(1 # 2, 1 # 2, 0); (1 # 2, 1 # 2, 1)]
           [0; 1] [0; 1] [((0%Z, 0%Z), 0)] (15 # 100) 1 eq_refl eq_refl).
  exists (1 # 2, 1 # 2, 1), 0%Z, 0%Z, 0.
  split; [reflexivity | ].
  split; [unfold right_open_cell; vm_compute; intuition discriminate | ].
  split; [unfold right_open_cell; vm_compute; intuition discriminate | ].
  split; [reflexivity | reflexivity].
Defined.

(** C5 as stated fails: a point outside the grid is excluded and, by the
    complement, also in the floor set. *)
Lemma floor_overlaps_excluded :
  let points : list tpoint := [(1 # 10, 1 # 10, 0); (1, 1, 0)] in
  let x_bins := [0; 3 # 10] in
  let y_bins := [0; 3 # 10] in
  exists hm,
    calculate_height_map points x_bins y_bins (5 # 100) = Returned hm /\
    let non_floor := non_floor_indices points x_bins y_bins hm (15 # 100) in
    ~ three_way_partition (length points)
        (floor_indices points non_floor) non_floor
        (excluded_indices points x_bins y_bins hm).
Proof.
  exists [((0%Z, 0%Z), 0)]. split; [reflexivity | ].
  cbv zeta. unfold three_way_partition. intros [_ [_ [Hdisj _]]].
  apply (Hdisj 1%nat); vm_compute; auto.
Qed.

(** C5, amended.  The floor set is the index range minus the non-floor
    set: floor and non-floor are disjoint and cover the range, each index
    in exactly one of them; the excluded points form no third class, they
    all lie in the floor set and none lies in the non-floor set. *)
Theorem floor_is_complement (points : list tpoint) (x_bins y_bins : list Q)
    (hm : dict Q) (threshold : Q) :
  let non_floor := non_floor_indices points x_bins y_bins hm threshold in
  let floor := floor_indices points non_floor in
  let excluded := excluded_indices points x_bins y_bins hm in
  (forall i, (i < length points)%nat <-> In i floor \/ In i non_floor) /\
  disjoint floor non_floor /\
  (forall i, In i excluded -> In i floor) /\
  disjoint non_floor excluded.
Proof.
  intros non_floor floor excluded.
  assert (Hrange : forall i, In i non_floor -> (i < length points)%nat).
  { intros i Hi. apply classify_from_In in Hi.
    destruct Hi as [_ [p [Hp _]]]. rewrite Nat.sub_0_r in Hp.
    apply nth_error_Some. congruence. }
  assert (Hdisj : disjoint non_floor excluded).
  { intros i Hnf Hex.
    apply classify_from_In in Hnf. apply excluded_from_In in Hex.
    rewrite Nat.sub_0_r in Hnf, Hex.
    destruct Hnf as [_ [p [Hp Hm]]], Hex as [_ [q [Hq Hu]]].
    rewrite Hp in Hq. injection Hq as <-.
    exact (non_floor_not_unclassified _ _ _ _ _ Hm Hu). }
  split; [ | split; [ | split]].
  - intros i. unfold floor. rewrite floor_indices_In. split.
    + intros Hi. destruct (in_dec Nat.eq_dec i non_floor) as [Hin | Hout];
        [now right | left; now split].
    + intros [[Hi _] | Hi]; [exact Hi | now apply Hrange].
  - intros i Hfl Hnf. apply floor_indices_In in Hfl. now destruct Hfl.
  - intros i Hex. apply floor_indices_In. split.
    + apply excluded_from_In in Hex. destruct Hex as [_ [p [Hp _]]].
      rewrite Nat.sub_0_r in Hp. apply nth_error_Some. congruence.
    + intros Hnf. exact (Hdisj i Hnf Hex).
  - exact Hdisj.
Qed.

End ClassifierClaims.

Section DictFacts.
Context {V : Type}.

Lemma cell_eqb_eq (k1 k2 : cell) : cell_eqb k1 k2 = true <-> k1 = k2.
Proof.
  destruct k1 as [i1 j1], k2 as [i2 j2]. unfold cell_eqb. cbn [fst snd].
  rewrite andb_true_iff, !Z.eqb_eq. split.
  - intros [-> ->]. reflexivity.
  - intros H. injection H as -> ->. now split.
Qed.

Lemma cell_eqb_refl (k : cell) : cell_eqb k k = true.
Proof. now apply cell_eqb_eq. Qed.

Lemma cell_eqb_neq (k1 k2 : cell) : cell_eqb k1 k2 = false <-> k1 <> k2.
Proof.
  rewrite <- cell_eqb_eq. destruct (cell_eqb k1 k2); split; congruence.
Qed.

Lemma dict_get_set_same (k : cell) (v : V) (d : dict V) :
  dict_get k (dict_set k v d) = Some v.
Proof.
  induction d as [ | [k' v'] d IH]; cbn [dict_set dict_get].
  - now rewrite cell_eqb_refl.
  - destruct (cell_eqb k k') eqn:E; cbn [dict_get]; rewrite E;
      [reflexivity | exact IH].
Qed.

Lemma dict_get_set_other (k k' : cell) (v : V) (d : dict V) :
  k' <> k -> dict_get k' (dict_set k v d) = dict_get k' d.
Proof.
  intros Hne. induction d as [ | [k0 v0] d IH]; cbn [dict_set dict_get].
  - apply cell_eqb_neq in Hne. now rewrite Hne.
  - destruct (cell_eqb k k0) eqn:E; cbn [dict_get].
    + apply cell_eqb_eq in E. subst k0.
      apply cell_eqb_neq in Hne. now rewrite Hne.
    + destruct (cell_eqb k' k0); [reflexivity | exact IH].
Qed.

Lemma dict_get_None (k : cell) (d : dict V) :
  dict_get k d = None <-> ~ In k (map fst d).
Proof.
  induction d as [ | [k' v'] d IH]; cbn [dict_get map fst In].
  - tauto.
  - destruct (cell_eqb k k') eqn:E.
    + apply cell_eqb_eq in E. subst. split; [discriminate | tauto].
    + apply cell_eqb_neq in E. rewrite IH. split.
      * intros H [Heq | Hin]; [now subst | tauto].
      * tauto.
Qed.

Lemma dict_get_In (k : cell) (v : V) (d : dict V) :
  dict_get k d = Some v -> In (k, v) d.
Proof.
  induction d as [ | [k' v'] d IH]; cbn [dict_get]; [discriminate | ].
  destruct (cell_eqb k k') eqn:E.
  - apply cell_eqb_eq in E. subst. intros H. injection H as ->. now left.
  - intros H. right. now apply IH.
Qed.

Lemma In_dict_get (k : cell) (v : V) (d : dict V) :
  NoDup (map fst d) -> In (k, v) d -> dict_get k d = Some v.
Proof.
  induction d as [ | [k' v'] d IH]; intros Hnd Hin; [contradiction | ].
  cbn [map fst] in Hnd. inversion Hnd as [ | ? ? Hnotin Hnd']; subst.
  cbn [dict_get]. destruct Hin as [Heq | Hin].
  - injection Heq as -> ->. now rewrite cell_eqb_refl.
  - destruct (cell_eqb k k') eqn:E.
    + apply cell_eqb_eq in E. subst. exfalso. apply Hnotin.
      change k' with (fst (k', v)). now apply in_map.
    + now apply IH.
Qed.

Lemma dict_set_keys (k : cell) (v : V) (d : dict V) :
  map fst (dict_set k v d) =
    if is_not_None (dict_get k d) then map fst d else map fst d ++ [k].
Proof.
  induction d as [ | [k' v'] d IH]; cbn [dict_set dict_get]; [reflexivity | ].
  destruct (cell_eqb k k') eqn:E; cbn [map fst is_not_None]; [reflexivity | ].
  rewrite IH. now destruct (is_not_None (dict_get k d)).
Qed.

Lemma dict_set_NoDup (k : cell) (v : V) (d : dict V) :
  NoDup (map fst d) -> NoDup (map fst (dict_set k v d)).
Proof.
  intros Hnd. rewrite dict_set_keys.
  destruct (dict_get k d) eqn:E; cbn [is_not_None]; [exact Hnd | ].
  apply dict_get_None in E.
  apply (Permutation_NoDup (l := k :: map fst d)).
  - apply Permutation_cons_append.
  - now constructor.
Qed.

Lemma dict_get_permutation (d d' : dict V) (k : cell) :
  NoDup (map fst d) -> Permutation d' d -> dict_get k d' = dict_get k d.
Proof.
  intros Hnd Hperm.
  assert (Hnd' : NoDup (map fst d')).
  { apply (Permutation_NoDup (l := map fst d)); [ | exact Hnd].
    apply Permutation_map. now apply Permutation_sym. }
  destruct (dict_get k d) as [v | ] eqn:E.
  - apply In_dict_get; [exact Hnd' | ].
    apply (Permutation_in _ (Permutation_sym Hperm)). now apply dict_get_In.
  - apply dict_get_None. apply dict_get_None in E. intros Hin. apply E.
    apply (Permutation_in _ (Permutation_map fst Hperm)). exact Hin.
Qed.

End DictFacts.

Section RawMapFacts.
Local Open Scope Q_scope.

Lemma group_step_get (d : dict (list Q)) (z : Q) (i j : Z) (c : cell) :
  dict_get c (group_step d (z, i, j)) =
    if cell_eqb (i, j) c
    then match dict_get c d with
         | Some zs => Some (zs ++ [z])
         | None => Some [z]
         end
    else dict_get c d.
Proof.
  unfold group_step. destruct (cell_eqb (i, j) c) eqn:E.
  - apply cell_eqb_eq in E. subst c.
    destruct (dict_get (i, j) d); apply dict_get_set_same.
  - apply cell_eqb_neq in E.
    destruct (dict_get (i, j) d); apply dict_get_set_other; congruence.
Qed.

Lemma group_step_NoDup (d : dict (list Q)) (e : Q * Z * Z) :
  NoDup (map fst d) -> NoDup (map fst (group_step d e)).
Proof.
  destruct e as [[z i] j]. unfold group_step.
  destruct (dict_get (i, j) d); apply dict_set_NoDup.
Qed.

Lemma fold_group_step_get (entries : list (Q * Z * Z)) (c : cell) :
  forall d,
    dict_get c (fold_left group_step entries d) =
      match dict_get c d with
      | Some zs => Some (zs ++ cell_z_values entries c)
      | None => match cell_z_values entries c with
                | [] => None
                | z :: zs => Some (z :: zs)
                end
      end.
Proof.
  induction entries as [ | [[z i] j] entries IH]; intros d.
  - cbn [fold_left cell_z_values filter map].
    destruct (dict_get c d); [now rewrite app_nil_r | reflexivity].
  - cbn [fold_left]. rewrite IH, group_step_get.
    unfold cell_z_values. cbn [filter fst snd].
    destruct (cell_eqb (i, j) c) eqn:E; cbn [map fst].
    + destruct (dict_get c d) as [zs | ].
      * now rewrite <- app_assoc.
      * reflexivity.
    + reflexivity.
Qed.

Lemma fold_group_step_NoDup (entries : list (Q * Z * Z)) :
  forall d, NoDup (map fst d) ->
            NoDup (map fst (fold_left group_step entries d)).
Proof.
  induction entries as [ | e entries IH]; intros d Hnd; [exact Hnd | ].
  cbn [fold_left]. apply IH. now apply group_step_NoDup.
Qed.

(** Each occupied cell holds exactly the z-values bucketed into it. *)
Lemma group_cells_get (entries : list (Q * Z * Z)) (c : cell) :
  dict_get c (group_cells entries) =
    match cell_z_values entries c with
    | [] => None
    | z :: zs => Some (z :: zs)
    end.
Proof.
  unfold group_cells. now rewrite fold_group_step_get.
Qed.

Lemma estimate_cells_get (d : dict (list Q)) (c : cell) :
  dict_get c (estimate_cells d) = option_map cell_estimate (dict_get c d).
Proof.
  induction d as [ | [k zs] d IH]; [reflexivity | ].
  cbn [estimate_cells map fst snd dict_get].
  destruct (cell_eqb c k); [reflexivity | exact IH].
Qed.

Lemma estimate_cells_keys (d : dict (list Q)) :
  map fst (estimate_cells d) = map fst d.
Proof.
  unfold estimate_cells. rewrite map_map. reflexivity.
Qed.

Lemma raw_height_map_inv (points : list tpoint) (x_bins y_bins : list Q)
    (raw : dict (option Q)) :
  raw_height_map points x_bins y_bins = Returned raw ->
  exists entries,
    bucket_entries points x_bins y_bins = Returned entries /\
    raw = estimate_cells (group_cells entries).
Proof.
  unfold raw_height_map.
  destruct (bucket_entries points x_bins y_bins) as [entries | e];
    cbn [bind]; [ | discriminate].
  intros H. injection H as <-. now exists entries.
Qed.

Lemma raw_height_map_NoDup (points : list tpoint) (x_bins y_bins : list Q)
    (raw : dict (option Q)) :
  raw_height_map points x_bins y_bins = Returned raw ->
  NoDup (map fst raw).
Proof.
  intros H. apply raw_height_map_inv in H. destruct H as [entries [_ ->]].
  rewrite estimate_cells_keys. apply fold_group_step_NoDup. constructor.
Qed.

(** *** Sorting *)

Lemma insert_sorted_perm (x : Q) (l : list Q) :
  Permutation (x :: l) (insert_sorted x l).
Proof.
  induction l as [ | y t IH]; cbn [insert_sorted]; [apply Permutation_refl | ].
  destruct (Qle_bool x y); [apply Permutation_refl | ].
  apply perm_trans with (y :: x :: t); [apply perm_swap | ].
  now apply perm_skip.
Qed.

Lemma nondecreasing_cons (a b : Q) (t : list Q) :
  nondecreasing (a :: b :: t) = (Qle_bool a b && nondecreasing (b :: t))%bool.
Proof. reflexivity. Qed.

Lemma insert_sorted_nondecreasing (x : Q) (l : list Q) :
  nondecreasing l = true -> nondecreasing (insert_sorted x l) = true.
Proof.
  induction l as [ | y t IH]; intros Hl; [reflexivity | ].
  cbn [insert_sorted]. destruct (Qle_bool x y) eqn:Hxy.
  - now rewrite nondecreasing_cons, Hxy, Hl.
  - assert (Hyx : Qle_bool y x = true).
    { apply Qle_bool_iff, Qlt_le_weak, Qlt_bool_iff.
      unfold Qlt_bool. now rewrite Hxy. }
    pose proof (IH (nondecreasing_tail _ _ Hl)) as Hins.
    destruct t as [ | z t].
    + cbn [insert_sorted]. now rewrite nondecreasing_cons, Hyx.
    + rewrite nondecreasing_cons in Hl. apply andb_true_iff in Hl.
      destruct Hl as [Hyz _].
      cbn [insert_sorted] in Hins |- *.
      destruct (Qle_bool x z); rewrite nondecreasing_cons.
      * now rewrite Hyx, Hins.
      * now rewrite Hyz, Hins.
Qed.

Lemma np_sort_perm (l : list Q) : Permutation l (np_sort l).
Proof.
  induction l as [ | x l IH]; [apply Permutation_refl | ].
  cbn [np_sort fold_right].
  apply perm_trans with (x :: np_sort l); [now apply perm_skip | ].
  apply insert_sorted_perm.
Qed.

Lemma np_sort_nondecreasing (l : list Q) : nondecreasing (np_sort l) = true.
Proof.
  induction l as [ | x l IH]; [reflexivity | ].
  cbn [np_sort fold_right]. now apply insert_sorted_nondecreasing.
Qed.

Lemma np_sort_length (l : list Q) : length (np_sort l) = length l.
Proof.
  symmetry. apply Permutation_length, np_sort_perm.
Qed.

(** The rank [max(0, int(0.05 n))] is the floor of [0.05 n]. *)
Lemma index_5th_percentile_floor (n : nat) :
  Z.of_nat (index_5th_percentile n) =
    Qfloor ((5 # 100) * inject_Z (Z.of_nat n)).
Proof.
  unfold index_5th_percentile. rewrite Nat.max_0_l.
  unfold Qfloor, Qmult, inject_Z. cbn [Qnum Qden].
  rewrite Nat2Z.inj_div. change (Z.of_nat 20) with 20%Z.
  change (Z.pos (100 * 1)) with (5 * 20)%Z.
  rewrite Z.div_mul_cancel_l by lia. reflexivity.
Qed.

End RawMapFacts.

Section RawMapClaims.
Local Open Scope Q_scope.

Ltac div_facts n :=
  pose proof (Nat.div_mod_eq n 20); pose proof (Nat.div_mod_eq n 2);
  pose proof (Nat.mod_upper_bound n 20); pose proof (Nat.mod_upper_bound n 2).

Lemma Qle_average (a b c : Q) : a <= b -> a <= c -> a <= (b + c) / 2.
Proof.
  intros Hb Hc. apply Qle_shift_div_l; [reflexivity | Lqa.lra].
Qed.

Lemma rank_le_median (l : list Q) :
  nondecreasing l = true -> (0 < length l)%nat ->
  nth (index_5th_percentile (length l)) l 0 <= median l.
Proof.
  intros Hs Hn. unfold index_5th_percentile, median.
  rewrite Nat.max_0_l. set (n := length l) in *.
  div_facts n.
  destruct (Nat.even n) eqn:E.
  - assert (2 <= n)%nat.
    { destruct n as [ | [ | m]]; [lia | discriminate E | lia]. }
    apply Qle_average; apply nondecreasing_nth; try exact Hs; fold n; lia.
  - apply nondecreasing_nth; [exact Hs | fold n; lia].
Qed.

(** C3. The raw estimate of an occupied cell holding n z'-values is the
    value at rank floor(0.05 n), clamped at 0, of their ascending sort; it
    is at least the minimum and at most the median of those values. *)
Theorem raw_estimate_rank (points : list tpoint) (x_bins y_bins : list Q)
    (raw : dict (option Q)) (c : cell) (h : Q) :
  raw_height_map points x_bins y_bins = Returned raw ->
  dict_get c raw = Some (Some h) ->
  exists entries,
    bucket_entries points x_bins y_bins = Returned entries /\
    let zs := cell_z_values entries c in
    let n := length zs in
    let sorted := np_sort zs in
    let rank :=
      Nat.max 0 (Z.to_nat (Qfloor ((5 # 100) * inject_Z (Z.of_nat n)))) in
    (0 < n)%nat /\
    Permutation zs sorted /\ nondecreasing sorted = true /\
    h = nth rank sorted 0 /\
    (exists zmin, In zmin zs /\ (forall z, In z zs -> zmin <= z) /\
                  zmin <= h) /\
    h <= median sorted.
Proof.
  intros Hraw Hget.
  destruct (raw_height_map_inv _ _ _ _ Hraw) as [entries [Hent ->]].
  exists entries. split; [exact Hent | ].
  rewrite estimate_cells_get, group_cells_get in Hget.
  intros zs n sorted rank. fold zs in Hget.
  assert (Hrank : rank = index_5th_percentile (length sorted)).
  { unfold rank. rewrite <- index_5th_percentile_floor, Nat2Z.id.
    unfold sorted. rewrite np_sort_length. fold n.
    unfold index_5th_percentile. now rewrite !Nat.max_0_l. }
  assert (Hlen : length sorted = n) by apply np_sort_length.
  assert (Hperm : Permutation zs sorted) by apply np_sort_perm.
  assert (Hsorted : nondecreasing sorted = true)
    by apply np_sort_nondecreasing.
  assert (Hpos : (0 < n)%nat).
  { unfold n. destruct zs; [discriminate Hget | simpl; lia]. }
  assert (Hh : h = nth rank sorted 0).
  { destruct zs as [ | z0 zs']; [discriminate Hget | ].
    cbn [option_map cell_estimate] in Hget. fold sorted in Hget.
    rewrite <- Hrank in Hget. now injection Hget as <-. }
  assert (Hrank_lt : (rank < n)%nat).
  { rewrite Hrank, Hlen. unfold index_5th_percentile.
    rewrite Nat.max_0_l. div_facts n. lia. }
  split; [exact Hpos | ]. split; [exact Hperm | ].
  split; [exact Hsorted | ]. split; [exact Hh | ]. split.
  - exists (nth 0 sorted 0). split; [ | split].
    + apply (Permutation_in _ (Permutation_sym Hperm)).
      apply nth_In. lia.
    + intros z Hz. apply (Permutation_in _ Hperm) in Hz.
      destruct (In_nth _ _ 0 Hz) as [k [Hk <-]].
      apply nondecreasing_nth; [exact Hsorted | lia].
    + rewrite Hh. apply nondecreasing_nth; [exact Hsorted | lia].
  - rewrite Hh, Hrank. apply rank_le_median; [exact Hsorted | lia].
Qed.

Lemma raw_estimate_rank_witness :
  exists entries,
    bucket_entries [(1 # 10, 1 # 10, 5); (2 # 10, 1 # 10, 0);
                    (1 # 10, 2 # 10, 1 # 100)] [0; 3 # 10] [0; 3 # 10]
      = Returned entries /\
    nth 0 (np_sort (cell_z_values entries (0%Z, 0%Z))) 0 = 0.
Proof.
  destruct (raw_estimate_rank
              [(1 # 10, 1 # 10, 5); (2 # 10, 1 # 10, 0);
               (1 # 10, 2 # 10, 1 # 100)] [0; 3 # 10] [0; 3 # 10]
              [((0%Z, 0%Z), Some 0)] (0%Z, 0%Z) 0 eq_refl eq_refl)
    as [entries [Hent _]].
  exists entries. split; [exact Hent | ].
  vm_compute in Hent. injection Hent as <-. reflexivity.
Defined.

Lemma combine_map_same {A B C : Type} (f : A -> B) (g : A -> C)
    (l : list A) :
  combine (combine l (map f l)) (map g l) = map (fun a => (a, f a, g a)) l.
Proof.
  induction l as [ | a l IH]; [reflexivity | ].
  cbn [map combine]. now rewrite IH.
Qed.

Lemma filter_none {A : Type} (f : A -> bool) (l : list A) :
  (forall a, In a l -> f a = false) -> filter f l = [].
Proof.
  induction l as [ | a l IH]; intros H; [reflexivity | ].
  cbn [filter]. rewrite (H a (or_introl eq_refl)).
  apply IH. intros b Hb. apply H. now right.
Qed.

(** C6. On ascending bin edges, when no point of the frame falls inside
    the grid extent the builder does not return a height map: the call
    fails, with the ValueError that the spatial-index constructor raises
    on an empty set of cell centres. *)
Theorem empty_grid_raises (points : list tpoint) (x_bins y_bins : list Q)
    (threshold : Q) :
  nondecreasing x_bins = true ->
  nondecreasing y_bins = true ->
  (forall p, In p points -> ~ inside_grid x_bins y_bins p) ->
  calculate_height_map points x_bins y_bins threshold
    = Raised ValueError_cKDTree /\
  (forall hm, calculate_height_map points x_bins y_bins threshold
              <> Returned hm).
Proof.
  intros Hx Hy Hout.
  assert (Hraw : raw_height_map points x_bins y_bins = Returned []).
  { unfold raw_height_map, bucket_entries.
    rewrite !digitize_ascending by assumption. cbn [bind].
    rewrite !map_map. unfold valid_entries.
    rewrite combine_map_same, filter_none; [reflexivity | ].
    intros [[p i] j] Hin. apply in_map_iff in Hin.
    destruct Hin as [q [Heq Hq]]. injection Heq as <- <- <-.
    destruct (valid_index x_bins (searchsorted_right x_bins (px q) - 1)
              && valid_index y_bins (searchsorted_right y_bins (py q) - 1))%bool
      eqn:Hv; [ | reflexivity].
    exfalso. apply (Hout q Hq). apply andb_true_iff in Hv.
    destruct Hv as [Hvx Hvy].
    exists (searchsorted_right x_bins (px q) - 1)%Z,
           (searchsorted_right y_bins (py q) - 1)%Z.
    split; now apply searchsorted_right_open_cell. }
  assert (Hcall : calculate_height_map points x_bins y_bins threshold
                  = Raised ValueError_cKDTree).
  { unfold calculate_height_map. rewrite Hraw. reflexivity. }
  split; [exact Hcall | ]. intros hm H. rewrite Hcall in H. discriminate H.
Qed.

Lemma empty_grid_raises_witness :
  calculate_height_map [(1, 1, 0)] [0; 3 # 10] [0; 3 # 10] (5 # 100)
    = Raised ValueError_cKDTree.
Proof.
  apply (empty_grid_raises [(1, 1, 0)] [0; 3 # 10] [0; 3 # 10] (5 # 100)
           eq_refl eq_refl).
  intros p [Hp | []] [i [j [[Hi [_ Hlt]] _]]]. subst p.
  assert (i = 0%Z) by (simpl in Hi; lia). subst i.
  vm_compute in Hlt. discriminate Hlt.
Defined.

End RawMapClaims.

Section SmoothingFacts.
Local Open Scope Q_scope.

Lemma py_min_spec (l : list Q) :
  forall a, In (py_min a l) (a :: l) /\
            forall v, In v (a :: l) -> py_min a l <= v.
Proof.
  induction l as [ | x l IH]; intros a.
  - cbn [py_min fold_left]. split; [now left | ].
    intros v [<- | []]. apply Qle_refl.
  - unfold py_min. cbn [fold_left].
    fold (py_min (if Qlt_bool x a then x else a) l).
    destruct (Qlt_bool x a) eqn:E.
    + apply Qlt_bool_iff in E. destruct (IH x) as [Hin Hle].
      split; [now right | ].
      intros v [<- | Hv]; [ | now apply Hle].
      apply Qle_trans with x; [apply Hle; now left | now apply Qlt_le_weak].
    + apply Qlt_bool_false in E. destruct (IH a) as [Hin Hle].
      split.
      * destruct Hin as [Hin | Hin]; [now left | right; now right].
      * intros v [<- | [<- | Hv]].
        -- apply Hle. now left.
        -- apply Qle_trans with a; [apply Hle; now left | exact E].
        -- apply Hle. now right.
Qed.

Lemma within_radius_self (q : Q * Q) : within_radius search_radius q q = true.
Proof.
  unfold within_radius, search_radius. apply Qle_bool_iff.
  destruct q as [x y]. cbn [fst snd]. Lqa.nra.
Qed.

Lemma query_ball_point_In (kdtree : list (Q * Q)) (q : Q * Q) (r : Q)
    (idx : nat) :
  In idx (query_ball_point kdtree q r) <->
  (idx < length kdtree)%nat /\
  within_radius r (nth idx kdtree (0, 0)) q = true.
Proof.
  unfold query_ball_point. rewrite filter_In, in_seq.
  split; intros [H1 H2]; (split; [lia | exact H2]).
Qed.

Lemma grid_keys_In (raw : dict (option Q)) (key : cell) :
  In key (grid_keys raw) <-> exists h, dict_get key raw = Some (Some h).
Proof.
  unfold grid_keys. rewrite filter_In. split.
  - intros [_ H]. destruct (dict_get key raw) as [[h | ] | ];
      [now exists h | discriminate | discriminate].
  - intros [h Hh]. rewrite Hh. split; [ | reflexivity].
    apply dict_get_In in Hh. change key with (fst (key, Some h)).
    now apply in_map.
Qed.

(** The heights read for cell [c] are the raw estimates of the occupied
    cells whose centre is within the radius. *)
Lemma neighbor_heights_In (raw : dict (option Q)) (x_bins y_bins : list Q)
    (r : Q) (c : cell) (v : Q) :
  In v (map (fun idx => nth idx (grid_values raw) 0)
          (query_ball_point (grid_centers raw x_bins y_bins)
             (grid_center x_bins y_bins c) r)) <->
  neighbor_estimate raw x_bins y_bins r c v.
Proof.
  unfold neighbor_estimate, grid_values, grid_centers.
  rewrite in_map_iff. split.
  - intros [idx [Hv Hidx]]. apply query_ball_point_In in Hidx.
    rewrite length_map in Hidx. destruct Hidx as [Hlt Hw].
    set (key := @nth cell idx (grid_keys raw) (0%Z, 0%Z)).
    assert (Hkey : In key (grid_keys raw)) by (apply nth_In; exact Hlt).
    apply grid_keys_In in Hkey. destruct Hkey as [h Hh].
    exists key. split.
    + rewrite <- Hv.
      rewrite (nth_indep _ 0
                 (match dict_get (0%Z, 0%Z) raw with
                  | Some (Some h0) => h0
                  | _ => 0
                  end)) by (now rewrite length_map).
      rewrite (map_nth (fun k => match dict_get k raw with
                                 | Some (Some h0) => h0
                                 | _ => 0
                                 end)).
      subst key. now rewrite Hh.
    + rewrite (nth_indep _ (0, 0) (grid_center x_bins y_bins (0%Z, 0%Z)))
        in Hw by (now rewrite length_map).
      rewrite (map_nth (grid_center x_bins y_bins)) in Hw. exact Hw.
  - intros [key [Hh Hw]].
    assert (Hkey : In key (grid_keys raw))
      by (apply grid_keys_In; now exists v).
    destruct (@In_nth cell _ _ (0%Z, 0%Z) Hkey) as [idx [Hlt Hnth]].
    exists idx. split.
    + rewrite (nth_indep _ 0
                 (match dict_get (0%Z, 0%Z) raw with
                  | Some (Some h0) => h0
                  | _ => 0
                  end)) by (now rewrite length_map).
      rewrite (map_nth (fun k => match dict_get k raw with
                                 | Some (Some h0) => h0
                                 | _ => 0
                                 end)).
      now rewrite Hnth, Hh.
    + apply query_ball_point_In. rewrite length_map. split; [exact Hlt | ].
      rewrite (nth_indep _ (0, 0) (grid_center x_bins y_bins (0%Z, 0%Z)))
        by (now rewrite length_map).
      rewrite (map_nth (grid_center x_bins y_bins)). now rewrite Hnth.
Qed.

(** An occupied cell is among its own neighbours. *)
Lemma neighbor_estimate_self (raw : dict (option Q)) (x_bins y_bins : list Q)
    (c : cell) (h : Q) :
  dict_get c raw = Some (Some h) ->
  neighbor_estimate raw x_bins y_bins search_radius c h.
Proof.
  intros Hh. exists c. split; [exact Hh | apply within_radius_self].
Qed.

Lemma processed_height_rule (raw : dict (option Q)) (x_bins y_bins : list Q)
    (threshold : Q) (c : cell) (h : Q) :
  dict_get c raw = Some (Some h) ->
  smoothing_rule raw x_bins y_bins search_radius threshold c h
    (processed_height (grid_centers raw x_bins y_bins) (grid_values raw)
       x_bins y_bins threshold c h).
Proof.
  intros Hh. unfold processed_height.
  pose proof (neighbor_heights_In raw x_bins y_bins search_radius c) as Hnb.
  destruct (map (fun idx => nth idx (grid_values raw) 0)
              (query_ball_point (grid_centers raw x_bins y_bins)
                 (grid_center x_bins y_bins c) search_radius))
    as [ | v vs].
  - exfalso. apply (Hnb h). now apply neighbor_estimate_self.
  - destruct (py_min_spec vs v) as [Hin Hle].
    exists (py_min v vs). split; [ | reflexivity]. split.
    + now apply Hnb.
    + intros w Hw. apply Hle. now apply Hnb.
Qed.

Lemma fold_process_item_get (kdtree : list (Q * Q)) (values : list Q)
    (x_bins y_bins : list Q) (threshold : Q) (items : dict (option Q))
    (c : cell) :
  NoDup (map fst items) ->
  forall acc,
    dict_get c (fold_left (process_item kdtree values x_bins y_bins threshold)
                  items acc) =
      match dict_get c items with
      | Some (Some h) =>
          Some (processed_height kdtree values x_bins y_bins threshold c h)
      | _ => dict_get c acc
      end.
Proof.
  induction items as [ | [k v] items IH]; intros Hnd acc; [reflexivity | ].
  cbn [map fst] in Hnd. inversion Hnd as [ | ? ? Hnotin Hnd']; subst.
  cbn [fold_left dict_get]. rewrite (IH Hnd').
  destruct (cell_eqb c k) eqn:E.
  - apply cell_eqb_eq in E. subst k.
    apply dict_get_None in Hnotin. rewrite Hnotin.
    unfold process_item. cbn [fst snd].
    destruct v as [h | ]; [apply dict_get_set_same | reflexivity].
  - apply cell_eqb_neq in E.
    destruct (dict_get c items) as [[h | ] | ]; try reflexivity;
      unfold process_item; cbn [fst snd];
      (destruct v as [h' | ];
       [now apply dict_get_set_other | reflexivity]).
Qed.

Lemma post_process_occupied (raw : dict (option Q))
    (x_bins y_bins : list Q) (threshold : Q) (c : cell) (h : Q) :
  dict_get c raw = Some (Some h) ->
  post_process raw x_bins y_bins threshold =
    Returned (fold_left
                (process_item (grid_centers raw x_bins y_bins)
                   (grid_values raw) x_bins y_bins threshold) raw []).
Proof.
  intros Hh. unfold post_process, grid_centers.
  assert (Hkey : In c (grid_keys raw)) by (apply grid_keys_In; now exists h).
  destruct (grid_keys raw) as [ | k ks]; [contradiction | reflexivity].
Qed.

(** The entry of an occupied cell in the map that the builder returns. *)
Lemma calculate_height_map_cell (points : list tpoint)
    (x_bins y_bins : list Q) (threshold : Q) (raw : dict (option Q))
    (c : cell) (h : Q) :
  raw_height_map points x_bins y_bins = Returned raw ->
  dict_get c raw = Some (Some h) ->
  exists processed,
    calculate_height_map points x_bins y_bins threshold = Returned processed /\
    dict_get c processed =
      Some (processed_height (grid_centers raw x_bins y_bins)
              (grid_values raw) x_bins y_bins threshold c h).
Proof.
  intros Hraw Hh.
  pose proof (raw_height_map_NoDup _ _ _ _ Hraw) as Hnd.
  exists (fold_left (process_item (grid_centers raw x_bins y_bins)
                       (grid_values raw) x_bins y_bins threshold) raw []).
  split.
  - unfold calculate_height_map. rewrite Hraw. cbn [bind].
    now apply post_process_occupied with (c := c) (h := h).
  - rewrite fold_process_item_get by exact Hnd. now rewrite Hh.
Qed.

End SmoothingFacts.

Section SmoothingClaims.
Local Open Scope Q_scope.

(** C2 as stated fails: on a grid of resolution 0.3 the cell (2, 0), two
    cells away from (0, 0), is farther than one grid-resolution unit from
    it (0.6 > 0.3), yet its estimate 2 is snapped to the estimate 0 of
    (0, 0); with a radius of one resolution unit it would keep 2. *)
Lemma smoothing_radius_not_resolution :
  let grid_resolution := 3 # 10 in
  let x_bins := [0; 3 # 10; 6 # 10; 9 # 10] in
  let y_bins := [0; 3 # 10] in
  let points : list tpoint := [(1 # 10, 1 # 10, 0); (7 # 10, 1 # 10, 2)] in
  exists raw processed,
    raw_height_map points x_bins y_bins = Returned raw /\
    calculate_height_map points x_bins y_bins (5 # 100) = Returned processed /\
    dict_get (2%Z, 0%Z) raw = Some (Some 2) /\
    ~ exists v,
        dict_get (2%Z, 0%Z) processed = Some v /\
        smoothing_rule raw x_bins y_bins (resolution_radius grid_resolution)
          (5 # 100) (2%Z, 0%Z) 2 v.
Proof.
  exists [((0%Z, 0%Z), Some 0); ((2%Z, 0%Z), Some 2)],
         [((0%Z, 0%Z), 0); ((2%Z, 0%Z), 0)].
  split; [reflexivity | ]. split; [reflexivity | ]. split; [reflexivity | ].
  intros [v [Hv [m [[[c' [Hc' Hw]] _] Heq]]]].
  vm_compute in Hv. injection Hv as <-.
  apply dict_get_In in Hc'.
  destruct Hc' as [Hc' | [Hc' | []]]; injection Hc' as <- <-.
  - vm_compute in Hw. discriminate Hw.
  - vm_compute in Heq. discriminate Heq.
Qed.

(** C2, amended.  For every occupied cell c with raw estimate h, the pass
    computes m as the minimum raw estimate over the occupied cells whose
    centre lies within Euclidean distance 1.0 of c's centre, in the
    coordinate units of the bin edges whatever the grid resolution (c
    itself included); the final estimate is m if |h - m| exceeds the
    threshold and h otherwise (h is also what an empty query result
    keeps); the value depends on the raw map only, so it is the same in
    whatever order the cells are processed. *)
Theorem smoothing_reads_raw_snapshot (points : list tpoint)
    (x_bins y_bins : list Q) (threshold : Q) (raw : dict (option Q))
    (c : cell) (h : Q) :
  raw_height_map points x_bins y_bins = Returned raw ->
  dict_get c raw = Some (Some h) ->
  exists processed v,
    calculate_height_map points x_bins y_bins threshold = Returned processed /\
    dict_get c processed = Some v /\
    smoothing_rule raw x_bins y_bins search_radius threshold c h v /\
    neighbor_estimate raw x_bins y_bins search_radius c h /\
    (forall values,
       processed_height [] values x_bins y_bins threshold c h = h) /\
    forall order,
      Permutation order raw ->
      dict_get c
        (fold_left (process_item (grid_centers raw x_bins y_bins)
                      (grid_values raw) x_bins y_bins threshold) order [])
        = Some v.
Proof.
  intros Hraw Hh.
  pose proof (raw_height_map_NoDup _ _ _ _ Hraw) as Hnd.
  destruct (calculate_height_map_cell points x_bins y_bins threshold raw c h
              Hraw Hh) as [processed [Hcall Hget]].
  exists processed,
         (processed_height (grid_centers raw x_bins y_bins) (grid_values raw)
            x_bins y_bins threshold c h).
  split; [exact Hcall | ]. split; [exact Hget | ].
  split; [now apply processed_height_rule | ].
  split; [now apply neighbor_estimate_self | ].
  split; [reflexivity | ].
  intros order Hperm.
  assert (Hnd' : NoDup (map fst order)).
  { apply (Permutation_NoDup (l := map fst raw)); [ | exact Hnd].
    apply Permutation_map. now apply Permutation_sym. }
  rewrite fold_process_item_get by exact Hnd'.
  rewrite (dict_get_permutation raw order c Hnd Hperm). now rewrite Hh.
Qed.

Lemma smoothing_reads_raw_snapshot_witness :
  exists processed,
    calculate_height_map [(1 # 10, 1 # 10, 0); (7 # 10, 1 # 10, 2)]
      [0; 3 # 10; 6 # 10; 9 # 10] [0; 3 # 10] (5 # 100) = Returned processed /\
    dict_get (2%Z, 0%Z) processed = Some 0.
Proof.
  destruct (smoothing_reads_raw_snapshot
              [(1 # 10, 1 # 10, 0); (7 # 10, 1 # 10, 2)]
              [0; 3 # 10; 6 # 10; 9 # 10] [0; 3 # 10] (5 # 100)
              [((0%Z, 0%Z), Some 0); ((2%Z, 0%Z), Some 2)] (2%Z, 0%Z) 2
              eq_refl eq_refl)
    as [processed [v [Hcall [Hget _]]]].
  exists processed. split; [exact Hcall | ].
  vm_compute in Hcall. injection Hcall as <-. reflexivity.
Defined.

(** C10. Smoothing never raises an estimate: an occupied cell is among the
    neighbours queried for it, so the neighbourhood minimum m is at most
    its raw estimate h, the smoothed estimate is h or m, and therefore at
    most h. *)
Theorem smoothing_never_raises (points : list tpoint)
    (x_bins y_bins : list Q) (threshold : Q) (raw : dict (option Q))
    (processed : dict Q) (c : cell) (h v : Q) :
  raw_height_map points x_bins y_bins = Returned raw ->
  calculate_height_map points x_bins y_bins threshold = Returned processed ->
  dict_get c raw = Some (Some h) ->
  dict_get c processed = Some v ->
  neighbor_estimate raw x_bins y_bins search_radius c h /\
  (exists m,
     is_minimum (neighbor_estimate raw x_bins y_bins search_radius c) m /\
             m <= h /\ (v = h \/ v = m)) /\
  v <= h.
Proof.
  intros Hraw Hcall Hh Hv.
  destruct (calculate_height_map_cell points x_bins y_bins threshold raw c h
              Hraw Hh) as [processed' [Hcall' Hv']].
  rewrite Hcall in Hcall'. injection Hcall' as <-.
  rewrite Hv in Hv'. injection Hv' as Heq.
  pose proof (neighbor_estimate_self raw x_bins y_bins c h Hh) as Hself.
  destruct (processed_height_rule raw x_bins y_bins threshold c h Hh)
    as [m [Hmin Hrule]].
  rewrite <- Heq in Hrule. clear Heq. rename Hrule into Heq.
  assert (Hmh : m <= h) by (apply (proj2 Hmin); exact Hself).
  split; [exact Hself | ]. split.
  - exists m. split; [exact Hmin | ]. split; [exact Hmh | ].
    rewrite Heq. destruct (Qlt_bool threshold (Qabs (h - m))); auto.
  - rewrite Heq. destruct (Qlt_bool threshold (Qabs (h - m)));
      [exact Hmh | apply Qle_refl].
Qed.

Lemma smoothing_never_raises_witness : 0 <= 2.
Proof.
  apply (smoothing_never_raises
           [(1 # 10, 1 # 10, 0); (7 # 10, 1 # 10, 2)]
           [0; 3 # 10; 6 # 10; 9 # 10] [0; 3 # 10] (5 # 100)
           [((0%Z, 0%Z), Some 0); ((2%Z, 0%Z), Some 2)]
           [((0%Z, 0%Z), 0); ((2%Z, 0%Z), 0)] (2%Z, 0%Z) 2 0
           eq_refl eq_refl eq_refl eq_refl).
Defined.

End SmoothingClaims.

(** * Further properties: the transformer *)

Section ProjectionFacts.
Local Open Scope R_scope.

Lemma projected_row_nonzero (a b c d : R) (p : point) :
  (a, b, c) <> (0, 0, 0) ->
  let '(x, y, z) := p in
  let t := plane_value a b c d p / (a * a + b * b + c * c) in
  projected_row a b c d p = (Fin (x - t * a), Fin (y - t * b), Fin (z - t * c)).
Proof.
  intros Hn. destruct p as [[x y] z]. cbv zeta.
  pose proof (sum_squares_pos a b c Hn) as Hq.
  unfold projected_row, plane_value.
  rewrite linalg_norm_sqr, np_div_nonzero by lra. reflexivity.
Qed.

Lemma transform_row_formula (a b c d : R) (p : point) :
  (a, b, c) <> (0, 0, 0) ->
  let '(x, y, z) := p in
  let s := plane_value a b c d p in
  let q := a * a + b * b + c * c in
  transform_row a b c d p =
    (Fin (x - s / q * a), Fin (y - s / q * b), Fin (s / sqrt q)).
Proof.
  intros Hn. destruct p as [[x y] z]. cbv zeta.
  pose proof (transform_row_nonzero a b c d (x, y, z) Hn) as H.
  cbv beta iota zeta in H. rewrite H, linalg_norm_sqr. reflexivity.
Qed.

(** The point computed on line 30 lies on the plane, the transformer
    outputs its first two coordinates, and |z'| is the Euclidean distance
    from the input point to it. *)
Theorem projection_lies_on_plane (a b c d x y z : R) :
  (a, b, c) <> (0, 0, 0) ->
  exists x2 y2 z2 z',
    projected_row a b c d (x, y, z) = (Fin x2, Fin y2, Fin z2) /\
    transform_row a b c d (x, y, z) = (Fin x2, Fin y2, Fin z') /\
    a * x2 + b * y2 + c * z2 + d = 0 /\
    sqrt ((x - x2) * (x - x2) + (y - y2) * (y - y2) + (z - z2) * (z - z2))
      = Rabs z'.
Proof.
  intros Hn.
  pose proof (sum_squares_pos a b c Hn) as Hq.
  pose proof (projected_row_nonzero a b c d (x, y, z) Hn) as Hp.
  pose proof (transform_row_formula a b c d (x, y, z) Hn) as Ht.
  cbv beta iota zeta in Hp, Ht. unfold plane_value in Hp, Ht.
  set (q := a * a + b * b + c * c) in *.
  set (s := a * x + b * y + c * z + d) in *.
  exists (x - s / q * a), (y - s / q * b), (z - s / q * c), (s / sqrt q).
  split; [exact Hp | ]. split; [exact Ht | ]. split.
  - unfold s, q. field. fold q. lra.
  - assert (Hsq : 0 < sqrt q) by now apply sqrt_lt_R0.
    assert (Hqq : sqrt q * sqrt q = q) by (apply sqrt_sqrt; lra).
    replace ((x - (x - s / q * a)) * (x - (x - s / q * a)) +
             (y - (y - s / q * b)) * (y - (y - s / q * b)) +
             (z - (z - s / q * c)) * (z - (z - s / q * c)))
      with ((s / sqrt q) * (s / sqrt q)).
    + rewrite <- (sqrt_Rsqr_abs (s / sqrt q)). reflexivity.
    + transitivity (s * s / q).
      * set (r := sqrt q) in *. rewrite <- Hqq. field. lra.
      * unfold q. field. fold q. lra.
Qed.

Lemma projection_lies_on_plane_witness :
  exists x2 y2 z2,
    projected_row 0 0 2 (-2) (1, 2, 3) = (Fin x2, Fin y2, Fin z2) /\
    0 * x2 + 0 * y2 + 2 * z2 + (-2) = 0.
Proof.
  assert (Hn : (0, 0, 2) <> (0, 0, 0)).
  { intros H. injection H as H. lra. }
  destruct (projection_lies_on_plane 0 0 2 (-2) 1 2 3 Hn)
    as [x2 [y2 [z2 [z' [Hp [_ [Hplane _]]]]]]].
  exists x2, y2, z2. split; [exact Hp | exact Hplane].
Defined.

(** Moving a point along the normal by k (a, b, c) leaves (x', y') as they
    are and adds k |n| to z'. *)
Theorem transform_along_normal (a b c d k x y z : R) :
  (a, b, c) <> (0, 0, 0) ->
  exists x' y' z',
    transform_row a b c d (x, y, z) = (Fin x', Fin y', Fin z') /\
    transform_row a b c d (x + k * a, y + k * b, z + k * c) =
      (Fin x', Fin y', Fin (z' + k * linalg_norm a b c)).
Proof.
  intros Hn.
  pose proof (sum_squares_pos a b c Hn) as Hq.
  pose proof (transform_row_formula a b c d (x, y, z) Hn) as H1.
  pose proof (transform_row_formula a b c d
                (x + k * a, y + k * b, z + k * c) Hn) as H2.
  cbv beta iota zeta in H1, H2. unfold plane_value in H1, H2.
  unfold linalg_norm.
  set (q := a * a + b * b + c * c) in *.
  assert (Hsq : 0 < sqrt q) by now apply sqrt_lt_R0.
  assert (Hqq : sqrt q * sqrt q = q) by (apply sqrt_sqrt; lra).
  eexists _, _, _. split; [exact H1 | ].
  rewrite H2. f_equal; [f_equal | ]; f_equal.
  - unfold q. field. fold q. lra.
  - unfold q. field. fold q. lra.
  - replace (a * (x + k * a) + b * (y + k * b) + c * (z + k * c) + d)
      with (a * x + b * y + c * z + d + k * q) by (unfold q; ring).
    set (r := sqrt q) in *. rewrite <- Hqq. field. lra.
Qed.

Lemma transform_along_normal_witness :
  exists x' y' z',
    transform_row 0 0 1 0 (1, 2, 3) = (Fin x', Fin y', Fin z') /\
    transform_row 0 0 1 0 (1 + 5 * 0, 2 + 5 * 0, 3 + 5 * 1) =
      (Fin x', Fin y', Fin (z' + 5 * linalg_norm 0 0 1)).
Proof.
  apply (transform_along_normal 0 0 1 0 5 1 2 3).
  intros H. injection H as H. lra.
Defined.

Lemma linalg_norm_scale (l a b c : R) :
  linalg_norm (l * a) (l * b) (l * c) = Rabs l * linalg_norm a b c.
Proof.
  unfold linalg_norm.
  replace (l * a * (l * a) + l * b * (l * b) + l * c * (l * c))
    with (Rsqr l * (a * a + b * b + c * c)) by (unfold Rsqr; ring).
  rewrite sqrt_mult; [ | apply Rle_0_sqr | nra].
  now rewrite sqrt_Rsqr_abs.
Qed.

(** The output does not depend on how the plane equation is scaled: the
    coefficients (l a, l b, l c, l d) with l > 0 give the same points, and
    with l < 0 the same (x', y') and the opposite z'. *)
Theorem transform_scale_invariant (points : list point) (l a b c d : R) :
  (a, b, c) <> (0, 0, 0) ->
  (0 < l ->
   transform_to_plane_based_coordinates points (l * a) (l * b) (l * c) (l * d)
   = transform_to_plane_based_coordinates points a b c d) /\
  (l < 0 ->
   forall x y z, exists x' y' z',
     transform_row a b c d (x, y, z) = (Fin x', Fin y', Fin z') /\
     transform_row (l * a) (l * b) (l * c) (l * d) (x, y, z)
       = (Fin x', Fin y', Fin (- z'))).
Proof.
  intros Hn.
  pose proof (sum_squares_pos a b c Hn) as Hq.
  assert (Hscaled : l <> 0 -> (l * a, l * b, l * c) <> (0, 0, 0)).
  { intros Hl H. injection H as Ha Hb Hc. apply Hn.
    f_equal; [f_equal | ]; nra. }
  assert (Hrow : l <> 0 -> forall x y z,
    transform_row (l * a) (l * b) (l * c) (l * d) (x, y, z) =
      (Fin (x - (a * x + b * y + c * z + d) / (a * a + b * b + c * c) * a),
       Fin (y - (a * x + b * y + c * z + d) / (a * a + b * b + c * c) * b),
       Fin (l / Rabs l *
            ((a * x + b * y + c * z + d) / sqrt (a * a + b * b + c * c))))).
  { intros Hl x y z.
    pose proof (transform_row_nonzero (l * a) (l * b) (l * c) (l * d)
                  (x, y, z) (Hscaled Hl)) as H.
    cbv beta iota zeta in H. unfold plane_value in H.
    rewrite H, linalg_norm_sqr, linalg_norm_scale. unfold linalg_norm.
    assert (Hsq : 0 < sqrt (a * a + b * b + c * c)) by now apply sqrt_lt_R0.
    assert (Habs : Rabs l <> 0) by now apply Rabs_no_R0.
    assert (Hlq : l * a * (l * a) + l * b * (l * b) + l * c * (l * c) <> 0).
    { replace (l * a * (l * a) + l * b * (l * b) + l * c * (l * c))
        with (l * l * (a * a + b * b + c * c)) by ring.
      assert (0 < l * l) by nra.
      assert (0 < l * l * (a * a + b * b + c * c))
        by now apply Rmult_lt_0_compat.
      lra. }
    f_equal; [f_equal | ]; f_equal; field; split; try assumption; lra. }
  split.
  - intros Hl. unfold transform_to_plane_based_coordinates. f_equal.
    apply map_ext. intros [[x y] z].
    rewrite Hrow by lra.
    pose proof (transform_row_formula a b c d (x, y, z) Hn) as H.
    cbv beta iota zeta in H. unfold plane_value in H. rewrite H.
    rewrite (Rabs_right l) by lra.
    f_equal. f_equal. field. split; [ | lra].
    assert (0 < sqrt (a * a + b * b + c * c)) by now apply sqrt_lt_R0. lra.
  - intros Hl x y z.
    pose proof (transform_row_formula a b c d (x, y, z) Hn) as H.
    cbv beta iota zeta in H. unfold plane_value in H.
    eexists _, _, _. split; [exact H | ].
    rewrite Hrow by lra. rewrite (Rabs_left l) by lra.
    f_equal. f_equal. field. split; [ | lra].
    assert (0 < sqrt (a * a + b * b + c * c)) by now apply sqrt_lt_R0. lra.
Qed.

Lemma transform_scale_invariant_witness :
  transform_to_plane_based_coordinates [(1, 2, 3)] (2 * 0) (2 * 0) (2 * 1)
    (2 * 0)
  = transform_to_plane_based_coordinates [(1, 2, 3)] 0 0 1 0.
Proof.
  apply (transform_scale_invariant [(1, 2, 3)] 2 0 0 1 0).
  - intros H. injection H as H. lra.
  - lra.
Defined.

(** The transformer leaves (x, y) as they are exactly for the points on
    the plane and for horizontal planes (a = b = 0). *)
Theorem transform_keeps_xy_iff (a b c d x y z : R) :
  (a, b, c) <> (0, 0, 0) ->
  exists x' y' z',
    transform_row a b c d (x, y, z) = (Fin x', Fin y', Fin z') /\
    (x' = x /\ y' = y <->
     plane_value a b c d (x, y, z) = 0 \/ (a = 0 /\ b = 0)).
Proof.
  intros Hn.
  pose proof (sum_squares_pos a b c Hn) as Hq.
  pose proof (transform_row_formula a b c d (x, y, z) Hn) as H.
  cbv beta iota zeta in H.
  eexists _, _, _. split; [exact H | ].
  set (s := plane_value a b c d (x, y, z)).
  set (q := a * a + b * b + c * c) in *.
  assert (Hsq : s / q = 0 <-> s = 0).
  { split; intros Hs.
    - replace s with (s / q * q) by (field; lra). rewrite Hs. ring.
    - rewrite Hs. unfold Rdiv. ring. }
  split.
  - intros [Hx Hy].
    assert (Ha : s / q * a = 0) by lra.
    assert (Hb : s / q * b = 0) by lra.
    apply Rmult_integral in Ha. apply Rmult_integral in Hb.
    destruct Ha as [Ha | Ha]; [left; now apply Hsq | ].
    destruct Hb as [Hb | Hb]; [left; now apply Hsq | ].
    right. now split.
  - intros [Hs | [Ha Hb]].
    + apply Hsq in Hs. rewrite Hs. split; ring.
    + rewrite Ha, Hb. split; ring.
Qed.

Lemma transform_keeps_xy_iff_witness :
  exists x' y' z',
    transform_row 0 0 1 0 (1, 2, 3) = (Fin x', Fin y', Fin z') /\
    (x' = 1 /\ y' = 2 <->
     plane_value 0 0 1 0 (1, 2, 3) = 0 \/ (0 = 0 /\ 0 = 0)).
Proof.
  apply (transform_keeps_xy_iff 0 0 1 0 1 2 3).
  intros H. injection H as H. lra.
Defined.

End ProjectionFacts.

(** * Further properties: bucketing and the raw height map *)

Section BucketingExtras.
Local Open Scope Q_scope.

Lemma in_extent_cell (bins : list Q) (x : Q) :
  nondecreasing bins = true ->
  (in_extent bins x <-> exists i, right_open_cell bins x i).
Proof.
  intros Hmono.
  destruct (searchsorted_right_spec bins x Hmono)
    as [r [Hr [Hlen [Hbelow Habove]]]].
  split.
  - intros [Hn [Hfirst Hlast]].
    assert (Hr1 : (1 <= r)%nat).
    { destruct r as [ | r]; [ | lia]. exfalso.
      apply (Qle_not_lt _ _ Hfirst). apply Habove. lia. }
    assert (Hr2 : (r <= length bins - 1)%nat).
    { destruct (Nat.le_gt_cases r (length bins - 1)) as [H | H]; [exact H | ].
      exfalso. apply (Qlt_irrefl x).
      apply Qlt_le_trans with (nth (length bins - 1) bins 0);
        [exact Hlast | apply Hbelow; lia]. }
    exists (Z.of_nat r - 1)%Z.
    apply searchsorted_right_open_cell; [exact Hmono | ].
    split; [now rewrite Hr | apply valid_index_iff; lia].
  - intros [i [Hi [Hle Hlt]]]. unfold bin_edge in Hle, Hlt.
    split; [lia | ]. split.
    + apply Qle_trans with (nth (Z.to_nat i) bins 0); [ | exact Hle].
      apply nondecreasing_nth; [exact Hmono | lia].
    + apply Qlt_le_trans with (nth (Z.to_nat (i + 1)) bins 0); [exact Hlt | ].
      apply nondecreasing_nth; [exact Hmono | lia].
Qed.

Lemma inside_grid_in_extent (x_bins y_bins : list Q) (p : tpoint) :
  nondecreasing x_bins = true ->
  nondecreasing y_bins = true ->
  (inside_grid x_bins y_bins p <->
   in_extent x_bins (px p) /\ in_extent y_bins (py p)).
Proof.
  intros Hx Hy. unfold inside_grid.
  rewrite (in_extent_cell x_bins (px p) Hx), (in_extent_cell y_bins (py p) Hy).
  split.
  - intros [i [j [Hi Hj]]]. split; [now exists i | now exists j].
  - intros [[i Hi] [j Hj]]. now exists i, j.
Qed.

Lemma digitize_unordered (xs bins : list Q) :
  nondecreasing bins = false -> nonincreasing bins = false ->
  digitize xs bins = Raised ValueError_digitize.
Proof.
  intros H1 H2. unfold digitize, monotonicity. now rewrite H1, H2.
Qed.

Lemma digitize_ordered (xs bins : list Q) :
  nondecreasing bins = true \/ nonincreasing bins = true ->
  exists ds, digitize xs bins = Returned ds /\ length ds = length xs.
Proof.
  intros H. unfold digitize, monotonicity.
  destruct (nondecreasing bins); cbn [Z.eqb].
  - eexists. split; [reflexivity | apply length_map].
  - destruct H as [H | H]; [discriminate | ]. rewrite H. cbn.
    eexists. split; [reflexivity | apply length_map].
Qed.

(** The builder raises the ValueError of [np.digitize] exactly when the
    edges of an axis are neither ascending nor descending, whatever the
    points, the empty frame included. *)
Theorem unordered_bins_raise (points : list tpoint) (x_bins y_bins : list Q)
    (threshold : Q) :
  calculate_height_map points x_bins y_bins threshold
    = Raised ValueError_digitize <->
  (nondecreasing x_bins = false /\ nonincreasing x_bins = false) \/
  (nondecreasing y_bins = false /\ nonincreasing y_bins = false).
Proof.
  unfold calculate_height_map, raw_height_map, bucket_entries.
  destruct (nondecreasing x_bins) eqn:Hx1;
    [ | destruct (nonincreasing x_bins) eqn:Hx2].
  3: { rewrite digitize_unordered by assumption. cbn [bind].
       split; [intros _; left; now split | reflexivity]. }
  all: destruct (digitize_ordered (map px points) x_bins) as [xd [-> _]];
    [auto | ]; cbn [bind].
  all: destruct (nondecreasing y_bins) eqn:Hy1;
    [ | destruct (nonincreasing y_bins) eqn:Hy2].
  all: try (rewrite digitize_unordered by assumption; cbn [bind];
            split; [intros _; right; now split | reflexivity]).
  all: destruct (digitize_ordered (map py points) y_bins) as [yd [-> _]];
    [auto | ]; cbn [bind].
  all: split; [ | intros [[? ?] | [? ?]]; discriminate].
  all: unfold post_process;
    match goal with
    | |- context [cKDTree ?d] => destruct (cKDTree d) as [kd | [ | ]] eqn:E
    end; cbn [bind]; try discriminate.
  all: exfalso; revert E; unfold cKDTree;
    match goal with
    | |- context [match ?d with [] => _ | _ :: _ => _ end] => destruct d
    end; discriminate.
Qed.

End BucketingExtras.

Section RawMapExtras.
Local Open Scope Q_scope.

Lemma bucket_entries_In (points : list tpoint) (x_bins y_bins : list Q)
    (entries : list (Q * Z * Z)) :
  bucket_entries points x_bins y_bins = Returned entries ->
  forall z i j,
    In (z, i, j) entries ->
    valid_index x_bins i = true /\ valid_index y_bins j = true /\
    exists p, In p points /\ pz p = z.
Proof.
  unfold bucket_entries.
  destruct (digitize (map px points) x_bins) as [xd | e]; cbn [bind];
    [ | discriminate].
  destruct (digitize (map py points) y_bins) as [yd | e]; cbn [bind];
    [ | discriminate].
  intros H z i j Hin. injection H as <-. unfold valid_entries in Hin.
  apply in_map_iff in Hin. destruct Hin as [[[p i'] j'] [Heq Hin]].
  injection Heq as <- <- <-.
  apply filter_In in Hin. destruct Hin as [Hin Hv].
  apply andb_true_iff in Hv. destruct Hv as [Hvx Hvy].
  split; [exact Hvx | ]. split; [exact Hvy | ].
  exists p. split; [ | reflexivity].
  apply in_combine_l in Hin. now apply in_combine_l in Hin.
Qed.

Lemma cell_z_values_In (entries : list (Q * Z * Z)) (c : cell) (z : Q) :
  In z (cell_z_values entries c) <-> In (z, fst c, snd c) entries.
Proof.
  unfold cell_z_values. rewrite in_map_iff. split.
  - intros [[[z' i] j] [Hz Hin]]. cbn [fst] in Hz. subst z'.
    apply filter_In in Hin. destruct Hin as [Hin Heq].
    cbn [fst snd] in Heq. apply cell_eqb_eq in Heq. now subst c.
  - intros Hin. exists (z, fst c, snd c). split; [reflexivity | ].
    apply filter_In. split; [exact Hin | ]. cbn [fst snd].
    apply cell_eqb_eq. now destruct c.
Qed.

Lemma raw_cell_inv (points : list tpoint) (x_bins y_bins : list Q)
    (raw : dict (option Q)) (c : cell) (v : option Q) :
  raw_height_map points x_bins y_bins = Returned raw ->
  dict_get c raw = Some v ->
  exists entries z zs,
    bucket_entries points x_bins y_bins = Returned entries /\
    cell_z_values entries c = z :: zs /\
    v = cell_estimate (z :: zs).
Proof.
  intros Hraw Hget.
  destruct (raw_height_map_inv _ _ _ _ Hraw) as [entries [Hent ->]].
  rewrite estimate_cells_get, group_cells_get in Hget.
  destruct (cell_z_values entries c) as [ | z zs] eqn:E; [discriminate | ].
  cbn [option_map] in Hget. injection Hget as <-.
  now exists entries, z, zs.
Qed.

(** Every entry of the raw map is a cell of the grid with an estimate:
    the [None] marker of line 75 is never stored, and no key lies outside
    the grid bounds. *)
Theorem raw_entries_are_estimates (points : list tpoint)
    (x_bins y_bins : list Q) (raw : dict (option Q)) (c : cell)
    (v : option Q) :
  raw_height_map points x_bins y_bins = Returned raw ->
  In (c, v) raw ->
  (exists h, v = Some h) /\
  valid_index x_bins (fst c) = true /\ valid_index y_bins (snd c) = true.
Proof.
  intros Hraw Hin.
  pose proof (raw_height_map_NoDup _ _ _ _ Hraw) as Hnd.
  pose proof (In_dict_get c v raw Hnd Hin) as Hget.
  destruct (raw_cell_inv _ _ _ _ c v Hraw Hget)
    as [entries [z [zs [Hent [Hzs ->]]]]].
  split; [eexists; reflexivity | ].
  assert (Hz : In z (cell_z_values entries c)) by (rewrite Hzs; now left).
  apply cell_z_values_In in Hz.
  destruct (bucket_entries_In _ _ _ _ Hent _ _ _ Hz) as [Hx [Hy _]].
  now split.
Qed.

Lemma raw_entries_are_estimates_witness :
  valid_index [0; 3 # 10] 0 = true.
Proof.
  apply (raw_entries_are_estimates [(1 # 10, 1 # 10, 5)] [0; 3 # 10]
           [0; 3 # 10] [((0%Z, 0%Z), Some 5)] (0%Z, 0%Z) (Some 5) eq_refl).
  now left.
Defined.

Lemma filter_length_perm {A : Type} (f : A -> bool) (l l' : list A) :
  Permutation l l' -> length (filter f l) = length (filter f l').
Proof.
  induction 1 as [ | x l l' _ IH | x y l | l l' l'' _ IH1 _ IH2].
  - reflexivity.
  - cbn [filter]. destruct (f x); cbn [length]; now rewrite IH.
  - cbn [filter]. destruct (f x), (f y); reflexivity.
  - now rewrite IH1.
Qed.

Lemma filter_length_prefix {A : Type} (f : A -> bool) (d : A) (l : list A) :
  forall k,
    (forall i, (k <= i < length l)%nat -> f (nth i l d) = false) ->
    (length (filter f l) <= k)%nat.
Proof.
  induction l as [ | a l IH]; intros k H; [simpl; lia | ].
  destruct k as [ | k].
  - rewrite filter_none; [simpl; lia | ].
    intros x Hx. destruct (In_nth _ _ d Hx) as [i [Hi <-]]. apply H. lia.
  - assert (Hl : (length (filter f l) <= k)%nat).
    { apply IH. intros i Hi. apply (H (S i)). simpl. lia. }
    cbn [filter]. destruct (f a); simpl; lia.
Qed.

(** The raw estimate of a cell is the z' of one of its points; with fewer
    than 20 points it is their minimum, and in general at most
    floor(n / 20) of the cell's n values lie strictly below it. *)
Theorem raw_estimate_is_low_point (points : list tpoint)
    (x_bins y_bins : list Q) (raw : dict (option Q)) (c : cell) (h : Q) :
  raw_height_map points x_bins y_bins = Returned raw ->
  dict_get c raw = Some (Some h) ->
  exists entries,
    bucket_entries points x_bins y_bins = Returned entries /\
    let zs := cell_z_values entries c in
    In h zs /\
    (exists p, In p points /\ pz p = h) /\
    ((length zs < 20)%nat -> forall z, In z zs -> h <= z) /\
    (length (filter (fun z => Qlt_bool z h) zs) <= length zs / 20)%nat.
Proof.
  intros Hraw Hget.
  destruct (raw_cell_inv _ _ _ _ c (Some h) Hraw Hget)
    as [entries [z0 [zs0 [Hent [Hzs Hest]]]]].
  exists entries. split; [exact Hent | ]. cbv zeta. rewrite Hzs.
  set (zs := z0 :: zs0) in *.
  set (sorted := np_sort zs).
  assert (Hperm : Permutation zs sorted) by apply np_sort_perm.
  assert (Hsorted : nondecreasing sorted = true)
    by apply np_sort_nondecreasing.
  assert (Hlen : length sorted = length zs) by apply np_sort_length.
  assert (Hpos : (0 < length zs)%nat) by (simpl; lia).
  assert (Hh : h = nth (length zs / 20) sorted 0).
  { unfold zs in Hest. cbn [cell_estimate] in Hest. fold zs sorted in Hest.
    rewrite Hlen in Hest. unfold index_5th_percentile in Hest.
    rewrite Nat.max_0_l in Hest. now injection Hest as ->. }
  assert (Hrank : (length zs / 20 < length zs)%nat).
  { pose proof (Nat.div_mod_eq (length zs) 20).
    pose proof (Nat.mod_upper_bound (length zs) 20). lia. }
  assert (Hin : In h zs).
  { apply (Permutation_in _ (Permutation_sym Hperm)).
    rewrite Hh. apply nth_In. lia. }
  split; [exact Hin | ]. split; [ | split].
  - rewrite <- Hzs in Hin. apply cell_z_values_In in Hin.
    destruct (bucket_entries_In _ _ _ _ Hent _ _ _ Hin) as [_ [_ Hp]].
    exact Hp.
  - intros Hsmall z Hz. apply (Permutation_in _ Hperm) in Hz.
    destruct (In_nth _ _ 0 Hz) as [k [Hk <-]].
    rewrite Hh, (Nat.div_small _ _ Hsmall).
    apply nondecreasing_nth; [exact Hsorted | lia].
  - rewrite (filter_length_perm _ _ _ Hperm).
    apply (filter_length_prefix _ 0). intros i Hi.
    apply Qlt_bool_false. rewrite Hh.
    apply nondecreasing_nth; [exact Hsorted | lia].
Qed.

Lemma raw_estimate_is_low_point_witness :
  exists entries,
    bucket_entries [(1 # 10, 1 # 10, 5); (2 # 10, 1 # 10, 0)]
      [0; 3 # 10] [0; 3 # 10] = Returned entries /\
    In 0 (cell_z_values entries (0%Z, 0%Z)).
Proof.
  destruct (raw_estimate_is_low_point
              [(1 # 10, 1 # 10, 5); (2 # 10, 1 # 10, 0)]
              [0; 3 # 10] [0; 3 # 10] [((0%Z, 0%Z), Some 0)] (0%Z, 0%Z) 0
              eq_refl eq_refl) as [entries [Hent [Hin _]]].
  exists entries. split; [exact Hent | exact Hin].
Defined.

Lemma dict_set_values_perm (k : cell) (zs : list Q) (z : Q)
    (d : dict (list Q)) :
  dict_get k d = Some zs ->
  Permutation (concat (map snd (dict_set k (zs ++ [z]) d)))
    (z :: concat (map snd d)).
Proof.
  induction d as [ | [k' v'] d IH]; cbn [dict_get]; [discriminate | ].
  cbn [dict_set]. destruct (cell_eqb k k') eqn:E.
  - intros H. injection H as ->. cbn [map snd concat].
    rewrite <- app_assoc. apply Permutation_sym.
    apply Permutation_trans with (zs ++ z :: concat (map snd d)).
    + apply Permutation_middle.
    + apply Permutation_app_head. cbn [app].
      apply Permutation_refl.
  - intros H. cbn [map snd concat].
    apply Permutation_trans with (v' ++ z :: concat (map snd d)).
    + apply Permutation_app_head. now apply IH.
    + apply Permutation_sym, Permutation_middle.
Qed.

Lemma dict_set_new_values_perm (k : cell) (z : Q) (d : dict (list Q)) :
  dict_get k d = None ->
  Permutation (concat (map snd (dict_set k [z] d)))
    (z :: concat (map snd d)).
Proof.
  induction d as [ | [k' v'] d IH]; cbn [dict_get dict_set].
  - intros _. apply Permutation_refl.
  - destruct (cell_eqb k k'); [discriminate | ]. intros H.
    cbn [map snd concat].
    apply Permutation_trans with (v' ++ z :: concat (map snd d)).
    + apply Permutation_app_head. now apply IH.
    + apply Permutation_sym, Permutation_middle.
Qed.

Lemma fold_group_step_values (entries : list (Q * Z * Z)) :
  forall d,
    Permutation (concat (map snd (fold_left group_step entries d)))
      (concat (map snd d) ++ map (fun e => fst (fst e)) entries).
Proof.
  induction entries as [ | [[z i] j] entries IH]; intros d.
  - cbn [fold_left map]. now rewrite app_nil_r.
  - cbn [fold_left map fst]. eapply Permutation_trans; [apply IH | ].
    apply Permutation_trans
      with ((z :: concat (map snd d)) ++ map (fun e => fst (fst e)) entries).
    + apply Permutation_app_tail. unfold group_step.
      destruct (dict_get (i, j) d) as [zs | ] eqn:E.
      * now apply dict_set_values_perm.
      * now apply dict_set_new_values_perm.
    + cbn [app]. apply Permutation_middle.
Qed.

(** Grouping loses and duplicates nothing: the z-values held by the cells
    are, as a multiset, the z' of the points inside the grid; so there are
    at most as many occupied cells as such points. *)
Theorem grouping_conserves_points (points : list tpoint)
    (x_bins y_bins : list Q) (entries : list (Q * Z * Z)) :
  bucket_entries points x_bins y_bins = Returned entries ->
  Permutation (concat (map snd (group_cells entries)))
    (map (fun e => fst (fst e)) entries) /\
  (forall c zs, In (c, zs) (group_cells entries) -> zs <> []) /\
  (length (group_cells entries) <= length entries <= length points)%nat.
Proof.
  intros Hent.
  assert (Hperm : Permutation (concat (map snd (group_cells entries)))
                    (map (fun e => fst (fst e)) entries)).
  { unfold group_cells.
    eapply Permutation_trans; [apply fold_group_step_values | ].
    apply Permutation_refl. }
  assert (Hne : forall c zs, In (c, zs) (group_cells entries) -> zs <> []).
  { intros c zs Hin.
    assert (Hnd : NoDup (map fst (group_cells entries)))
      by (apply fold_group_step_NoDup; constructor).
    pose proof (In_dict_get c zs _ Hnd Hin) as Hget.
    rewrite group_cells_get in Hget.
    destruct (cell_z_values entries c); [discriminate | ].
    injection Hget as <-. discriminate. }
  split; [exact Hperm | ]. split; [exact Hne | ]. split.
  - apply Permutation_length in Hperm. rewrite length_map in Hperm.
    rewrite <- Hperm.
    clear Hperm. induction (group_cells entries) as [ | [c zs] d IH];
      [simpl; lia | ].
    cbn [map snd concat length]. rewrite length_app.
    assert (zs <> []) by (apply (Hne c); now left).
    assert (length (concat (map snd d)) >= length d)%nat.
    { apply IH. intros c' zs' Hin. apply (Hne c'). now right. }
    destruct zs; [congruence | simpl; lia].
  - revert Hent. unfold bucket_entries.
    destruct (digitize (map px points) x_bins) as [xd | e]; cbn [bind];
      [ | discriminate].
    destruct (digitize (map py points) y_bins) as [yd | e]; cbn [bind];
      [ | discriminate].
    intros H. injection H as <-. unfold valid_entries.
    rewrite length_map.
    eapply Nat.le_trans; [apply filter_length_le | ].
    rewrite !length_combine. lia.
Qed.

Lemma grouping_conserves_points_witness :
  (length (group_cells [(5, 0%Z, 0%Z); (0, 0%Z, 0%Z)]%Q) <= 2)%nat.
Proof.
  apply (grouping_conserves_points
           [(1 # 10, 1 # 10, 5); (2 # 10, 1 # 10, 0)] [0; 3 # 10] [0; 3 # 10]
           [(5, 0%Z, 0%Z); (0, 0%Z, 0%Z)] eq_refl).
Defined.

End RawMapExtras.

(** * Further properties: smoothing and classification *)

Section SmoothingExtras.
Local Open Scope Q_scope.

Lemma post_process_inv (raw : dict (option Q)) (x_bins y_bins : list Q)
    (threshold : Q) (processed : dict Q) :
  post_process raw x_bins y_bins threshold = Returned processed ->
  processed =
    fold_left (process_item (grid_centers raw x_bins y_bins)
                 (grid_values raw) x_bins y_bins threshold) raw [].
Proof.
  unfold post_process.
  destruct (grid_centers raw x_bins y_bins) as [ | q qs] eqn:E;
    cbn [cKDTree bind]; [discriminate | ].
  intros H. now injection H as <-.
Qed.

Lemma calculate_height_map_inv (points : list tpoint)
    (x_bins y_bins : list Q) (threshold : Q) (processed : dict Q) :
  calculate_height_map points x_bins y_bins threshold = Returned processed ->
  exists raw,
    raw_height_map points x_bins y_bins = Returned raw /\
    processed =
      fold_left (process_item (grid_centers raw x_bins y_bins)
                   (grid_values raw) x_bins y_bins threshold) raw [].
Proof.
  unfold calculate_height_map.
  destruct (raw_height_map points x_bins y_bins) as [raw | e]; cbn [bind];
    [ | discriminate].
  intros H. exists raw. split; [reflexivity | now apply post_process_inv].
Qed.

Lemma cell_estimate_cons (z : Q) (zs : list Q) :
  cell_estimate (z :: zs) =
    Some (nth (length (z :: zs) / 20) (np_sort (z :: zs)) 0).
Proof.
  unfold cell_estimate, index_5th_percentile.
  now rewrite np_sort_length, Nat.max_0_l.
Qed.

Lemma raw_estimate_point (points : list tpoint) (x_bins y_bins : list Q)
    (raw : dict (option Q)) (c : cell) (h : Q) :
  raw_height_map points x_bins y_bins = Returned raw ->
  dict_get c raw = Some (Some h) ->
  exists p, In p points /\ pz p = h.
Proof.
  intros Hraw Hget.
  destruct (raw_cell_inv _ _ _ _ c (Some h) Hraw Hget)
    as [entries [z0 [zs0 [Hent [Hzs Hest]]]]].
  rewrite cell_estimate_cons in Hest.
  remember (z0 :: zs0) as zs eqn:Ezs.
  assert (Hh : h = nth (length zs / 20) (np_sort zs) 0) by congruence.
  assert (Hin : In h zs).
  { rewrite Hh.
    apply (Permutation_in _ (Permutation_sym (np_sort_perm zs))).
    apply nth_In. rewrite np_sort_length.
    pose proof (Nat.div_mod_eq (length zs) 20).
    pose proof (Nat.mod_upper_bound (length zs) 20).
    assert (0 < length zs)%nat by (subst zs; simpl; lia). lia. }
  rewrite <- Hzs in Hin. apply cell_z_values_In in Hin.
  destruct (bucket_entries_In _ _ _ _ Hent _ _ _ Hin) as [_ [_ Hp]].
  exact Hp.
Qed.

Lemma fold_process_item_keys (kdtree : list (Q * Q)) (values : list Q)
    (x_bins y_bins : list Q) (threshold : Q) (items : dict (option Q)) :
  (forall c v, In (c, v) items -> exists h, v = Some h) ->
  forall acc,
    NoDup (map fst acc ++ map fst items) ->
    map fst (fold_left (process_item kdtree values x_bins y_bins threshold)
               items acc) = map fst acc ++ map fst items.
Proof.
  induction items as [ | [k v] items IH]; intros Hsome acc Hnd.
  - cbn [fold_left map]. now rewrite app_nil_r.
  - cbn [fold_left map fst] in *.
    destruct (Hsome k v (or_introl eq_refl)) as [h ->].
    unfold process_item at 2. cbn [fst snd].
    assert (Hk : dict_get k acc = None).
    { apply dict_get_None. intros Hin.
      apply NoDup_remove_2 in Hnd. apply Hnd. apply in_or_app. now left. }
    rewrite IH.
    + rewrite dict_set_keys, Hk. cbn [is_not_None].
      now rewrite <- app_assoc.
    + intros c v Hin. apply (Hsome c v). now right.
    + rewrite dict_set_keys, Hk. cbn [is_not_None].
      rewrite <- app_assoc. exact Hnd.
Qed.

(** The returned height map has exactly one entry per occupied cell, with
    the keys of the raw map in the same order: a cell is a key iff a point
    of the frame was bucketed into it. *)
Theorem height_map_keys (points : list tpoint) (x_bins y_bins : list Q)
    (threshold : Q) (raw : dict (option Q)) (processed : dict Q) :
  raw_height_map points x_bins y_bins = Returned raw ->
  calculate_height_map points x_bins y_bins threshold = Returned processed ->
  map fst processed = map fst raw /\ NoDup (map fst processed) /\
  (forall entries c,
     bucket_entries points x_bins y_bins = Returned entries ->
     (In c (map fst processed) <-> cell_z_values entries c <> [])).
Proof.
  intros Hraw Hcall.
  destruct (calculate_height_map_inv _ _ _ _ _ Hcall) as [raw' [Hraw' Hp]].
  rewrite Hraw in Hraw'. injection Hraw' as <-.
  pose proof (raw_height_map_NoDup _ _ _ _ Hraw) as Hnd.
  assert (Hkeys : map fst processed = map fst raw).
  { rewrite Hp. rewrite fold_process_item_keys; [reflexivity | | exact Hnd].
    intros c v Hin.
    pose proof (In_dict_get c v raw Hnd Hin) as Hget.
    destruct (raw_cell_inv _ _ _ _ c v Hraw Hget) as [_ [z [zs [_ [_ ->]]]]].
    eexists. reflexivity. }
  split; [exact Hkeys | ]. split; [now rewrite Hkeys | ].
  intros entries c Hent. rewrite Hkeys.
  destruct (raw_height_map_inv _ _ _ _ Hraw) as [entries' [Hent' ->]].
  rewrite Hent in Hent'. injection Hent' as <-.
  rewrite estimate_cells_keys.
  pose proof (group_cells_get entries c) as Hget.
  pose proof (dict_get_None c (group_cells entries)) as Hnone.
  destruct (cell_z_values entries c) as [ | z zs].
  - split; [ | congruence]. intros Hin. now apply Hnone in Hget.
  - split; [discriminate | ]. intros _.
    apply dict_get_In in Hget. change c with (fst (c, z :: zs)).
    now apply in_map.
Qed.

Lemma height_map_keys_witness :
  map fst [((0%Z, 0%Z), 0); ((2%Z, 0%Z), 0)] =
  map fst [((0%Z, 0%Z), Some 0); ((2%Z, 0%Z), Some 2)].
Proof.
  apply (height_map_keys [(1 # 10, 1 # 10, 0); (7 # 10, 1 # 10, 2)]
           [0; 3 # 10; 6 # 10; 9 # 10] [0; 3 # 10] (5 # 100)
           [((0%Z, 0%Z), Some 0); ((2%Z, 0%Z), Some 2)]
           [((0%Z, 0%Z), 0); ((2%Z, 0%Z), 0)] eq_refl eq_refl).
Defined.

Lemma processed_cell_inv (points : list tpoint) (x_bins y_bins : list Q)
    (threshold : Q) (raw : dict (option Q)) (processed : dict Q)
    (c : cell) (v : Q) :
  raw_height_map points x_bins y_bins = Returned raw ->
  calculate_height_map points x_bins y_bins threshold = Returned processed ->
  dict_get c processed = Some v ->
  exists h,
    dict_get c raw = Some (Some h) /\
    v = processed_height (grid_centers raw x_bins y_bins) (grid_values raw)
          x_bins y_bins threshold c h.
Proof.
  intros Hraw Hcall Hv.
  destruct (calculate_height_map_inv _ _ _ _ _ Hcall) as [raw' [Hraw' Hp]].
  rewrite Hraw in Hraw'. injection Hraw' as <-.
  pose proof (raw_height_map_NoDup _ _ _ _ Hraw) as Hnd.
  rewrite Hp, fold_process_item_get in Hv by exact Hnd.
  destruct (dict_get c raw) as [[h | ] | ]; cbn [dict_get] in Hv;
    try discriminate.
  injection Hv as <-. now exists h.
Qed.

(** Smoothing invents no value: every entry of the returned height map is
    the raw estimate of an occupied cell within the search radius, hence
    the z' of a point of the frame. *)
Theorem height_map_values_are_point_heights (points : list tpoint)
    (x_bins y_bins : list Q) (threshold : Q) (raw : dict (option Q))
    (processed : dict Q) (c : cell) (v : Q) :
  raw_height_map points x_bins y_bins = Returned raw ->
  calculate_height_map points x_bins y_bins threshold = Returned processed ->
  dict_get c processed = Some v ->
  neighbor_estimate raw x_bins y_bins search_radius c v /\
  exists p, In p points /\ pz p = v.
Proof.
  intros Hraw Hcall Hv.
  destruct (processed_cell_inv _ _ _ _ _ _ _ _ Hraw Hcall Hv) as [h [Hh ->]].
  destruct (processed_height_rule raw x_bins y_bins threshold c h Hh)
    as [m [[Hm _] Heq]].
  assert (Hnb : neighbor_estimate raw x_bins y_bins search_radius c
                  (processed_height (grid_centers raw x_bins y_bins)
                     (grid_values raw) x_bins y_bins threshold c h)).
  { rewrite Heq. destruct (Qlt_bool threshold (Qabs (h - m)));
      [exact Hm | now apply neighbor_estimate_self]. }
  split; [exact Hnb | ].
  destruct Hnb as [c' [Hc' _]].
  exact (raw_estimate_point _ _ _ _ _ _ Hraw Hc').
Qed.

Lemma height_map_values_are_point_heights_witness :
  exists p, In p [(1 # 10, 1 # 10, 0); (7 # 10, 1 # 10, 2)] /\ pz p = 0.
Proof.
  apply (height_map_values_are_point_heights
           [(1 # 10, 1 # 10, 0); (7 # 10, 1 # 10, 2)]
           [0; 3 # 10; 6 # 10; 9 # 10] [0; 3 # 10] (5 # 100)
           [((0%Z, 0%Z), Some 0); ((2%Z, 0%Z), Some 2)]
           [((0%Z, 0%Z), 0); ((2%Z, 0%Z), 0)] (2%Z, 0%Z) 0
           eq_refl eq_refl eq_refl).
Defined.

(** A cell that is not more than the threshold above any occupied cell
    within the search radius keeps its raw estimate; in particular a
    local minimum and an isolated cell are never changed. *)
Theorem within_threshold_unchanged (points : list tpoint)
    (x_bins y_bins : list Q) (threshold : Q) (raw : dict (option Q))
    (processed : dict Q) (c : cell) (h : Q) :
  raw_height_map points x_bins y_bins = Returned raw ->
  calculate_height_map points x_bins y_bins threshold = Returned processed ->
  dict_get c raw = Some (Some h) ->
  (forall v, neighbor_estimate raw x_bins y_bins search_radius c v ->
             h - v <= threshold) ->
  dict_get c processed = Some h.
Proof.
  intros Hraw Hcall Hh Hclose.
  destruct (calculate_height_map_cell points x_bins y_bins threshold raw c h
              Hraw Hh) as [processed' [Hcall' Hget]].
  rewrite Hcall in Hcall'. injection Hcall' as <-.
  rewrite Hget. f_equal.
  destruct (processed_height_rule raw x_bins y_bins threshold c h Hh)
    as [m [[Hm Hmin] Heq]].
  rewrite Heq.
  destruct (Qlt_bool threshold (Qabs (h - m))) eqn:E; [ | reflexivity].
  exfalso. apply Qlt_bool_iff in E.
  assert (Hmh : m <= h)
    by (apply Hmin; now apply neighbor_estimate_self).
  rewrite Qabs_pos in E by Lqa.lra.
  apply (Qlt_irrefl threshold).
  apply Qlt_le_trans with (h - m); [exact E | now apply Hclose].
Qed.

Lemma within_threshold_unchanged_witness :
  dict_get (0%Z, 0%Z) [((0%Z, 0%Z), 0); ((2%Z, 0%Z), 0)] = Some 0.
Proof.
  apply (within_threshold_unchanged
           [(1 # 10, 1 # 10, 0); (7 # 10, 1 # 10, 2)]
           [0; 3 # 10; 6 # 10; 9 # 10] [0; 3 # 10] (5 # 100)
           [((0%Z, 0%Z), Some 0); ((2%Z, 0%Z), Some 2)]
           [((0%Z, 0%Z), 0); ((2%Z, 0%Z), 0)] (0%Z, 0%Z) 0
           eq_refl eq_refl eq_refl).
  intros v [c' [Hc' _]]. apply dict_get_In in Hc'.
  destruct Hc' as [Hc' | [Hc' | []]]; injection Hc' as <- <-; discriminate.
Defined.

End SmoothingExtras.

Section ClassifierExtras.
Local Open Scope Q_scope.

Lemma classify_from_sorted (points : list tpoint) (x_bins y_bins : list Q)
    (hm : dict Q) (threshold : Q) :
  forall start,
    StronglySorted lt (classify_from start points x_bins y_bins hm threshold).
Proof.
  induction points as [ | p rest IH]; intros start; [constructor | ].
  cbn [classify_from].
  assert (Hcons : StronglySorted lt
            (start :: classify_from (S start) rest x_bins y_bins hm
                        threshold)).
  { constructor; [apply IH | ]. apply Forall_forall. intros i Hi.
    apply classify_from_In in Hi. lia. }
  destruct (valid_index x_bins (searchsorted_right x_bins (px p) - 1)
            && valid_index y_bins (searchsorted_right y_bins (py p) - 1))%bool;
    [ | apply IH].
  destruct (dict_get _ hm) as [h | ]; [ | apply IH].
  destruct (Qlt_bool threshold (Qabs (pz p - h))); [exact Hcons | apply IH].
Qed.

Lemma StronglySorted_lt_NoDup (l : list nat) :
  StronglySorted lt l -> NoDup l.
Proof.
  induction 1 as [ | a l _ IH Hall]; constructor; [ | exact IH].
  intros Hin. rewrite Forall_forall in Hall. specialize (Hall a Hin). lia.
Qed.

Lemma classify_from_range (points : list tpoint) (x_bins y_bins : list Q)
    (hm : dict Q) (threshold : Q) (i : nat) :
  In i (non_floor_indices points x_bins y_bins hm threshold) ->
  (i < length points)%nat.
Proof.
  intros Hi. apply classify_from_In in Hi.
  destruct Hi as [_ [p [Hp _]]]. rewrite Nat.sub_0_r in Hp.
  apply nth_error_Some. congruence.
Qed.

(** The non-floor list is strictly ascending: every index is listed at
    most once, in frame order, and is an index of the frame. *)
Theorem non_floor_indices_ascending (points : list tpoint)
    (x_bins y_bins : list Q) (hm : dict Q) (threshold : Q) :
  let non_floor := non_floor_indices points x_bins y_bins hm threshold in
  StronglySorted lt non_floor /\ NoDup non_floor /\
  Forall (fun i => (i < length points)%nat) non_floor.
Proof.
  intros non_floor.
  assert (Hs : StronglySorted lt non_floor) by apply classify_from_sorted.
  split; [exact Hs | ]. split; [now apply StronglySorted_lt_NoDup | ].
  apply Forall_forall. intros i Hi. now apply classify_from_range in Hi.
Qed.

Lemma filter_split_length {A : Type} (f : A -> bool) (l : list A) :
  (length (filter f l) + length (filter (fun a => negb (f a)) l)
   = length l)%nat.
Proof.
  induction l as [ | a l IH]; [reflexivity | ].
  cbn [filter]. destruct (f a); cbn [negb length]; lia.
Qed.

Lemma floor_and_non_floor_counts_aux (points : list tpoint)
    (x_bins y_bins : list Q) (hm : dict Q) (threshold : Q) :
  (length (floor_indices points
             (non_floor_indices points x_bins y_bins hm threshold))
   + length (non_floor_indices points x_bins y_bins hm threshold)
   = length points)%nat.
Proof.
  set (non_floor := non_floor_indices points x_bins y_bins hm threshold).
  pose proof (filter_split_length
                (fun idx => existsb (Nat.eqb idx) non_floor)
                (seq 0 (length points))) as Hsplit.
  rewrite length_seq in Hsplit. unfold floor_indices.
  assert (Hperm : Permutation
            (filter (fun idx => existsb (Nat.eqb idx) non_floor)
               (seq 0 (length points))) non_floor).
  { apply NoDup_Permutation.
    - apply NoDup_filter, seq_NoDup.
    - apply StronglySorted_lt_NoDup, classify_from_sorted.
    - intros i. rewrite filter_In, in_seq, existsb_eqb_In. split.
      + now intros [_ H].
      + intros H. split; [ | exact H].
        apply classify_from_range in H. lia. }
  apply Permutation_length in Hperm. lia.
Qed.

(** The two counts that the script prints add up: the number of floor
    indices plus the number of non-floor indices is the number of points
    of the frame. *)
Theorem floor_and_non_floor_counts (points : list tpoint)
    (x_bins y_bins : list Q) (hm : dict Q) (threshold : Q) :
  let non_floor := non_floor_indices points x_bins y_bins hm threshold in
  (length (floor_indices points non_floor) + length non_floor
   = length points)%nat.
Proof.
  intros non_floor. apply floor_and_non_floor_counts_aux.
Qed.

Lemma bucket_entries_ascending (points : list tpoint)
    (x_bins y_bins : list Q) :
  nondecreasing x_bins = true ->
  nondecreasing y_bins = true ->
  bucket_entries points x_bins y_bins =
    Returned
      (map (fun e : tpoint * Z * Z => let '(p, i, j) := e in (pz p, i, j))
         (filter (fun e : tpoint * Z * Z =>
                    let '(_, i, j) := e in
                    (valid_index x_bins i && valid_index y_bins j)%bool)
            (map (fun p => (p, (searchsorted_right x_bins (px p) - 1)%Z,
                            (searchsorted_right y_bins (py p) - 1)%Z))
               points))).
Proof.
  intros Hx Hy. unfold bucket_entries.
  rewrite !digitize_ascending by assumption. cbn [bind].
  rewrite !map_map. unfold valid_entries.
  now rewrite combine_map_same.
Qed.

Lemma inside_grid_valid (x_bins y_bins : list Q) (p : tpoint) :
  nondecreasing x_bins = true ->
  nondecreasing y_bins = true ->
  (inside_grid x_bins y_bins p <->
   (valid_index x_bins (searchsorted_right x_bins (px p) - 1)
    && valid_index y_bins (searchsorted_right y_bins (py p) - 1))%bool
   = true).
Proof.
  intros Hx Hy. rewrite andb_true_iff. unfold inside_grid. split.
  - intros [i [j [Hi Hj]]].
    apply searchsorted_right_open_cell in Hi; [ | exact Hx].
    apply searchsorted_right_open_cell in Hj; [ | exact Hy].
    destruct Hi as [-> Hi], Hj as [-> Hj]. now split.
  - intros [Hi Hj].
    exists (searchsorted_right x_bins (px p) - 1)%Z,
           (searchsorted_right y_bins (py p) - 1)%Z.
    split; now apply searchsorted_right_open_cell.
Qed.

(** Every point of the frame inside the grid has an estimate in the map
    built from that frame. *)
Lemma inside_grid_has_estimate (points : list tpoint)
    (x_bins y_bins : list Q) (threshold : Q) (hm : dict Q) (p : tpoint) :
  nondecreasing x_bins = true ->
  nondecreasing y_bins = true ->
  calculate_height_map points x_bins y_bins threshold = Returned hm ->
  In p points ->
  (valid_index x_bins (searchsorted_right x_bins (px p) - 1)
   && valid_index y_bins (searchsorted_right y_bins (py p) - 1))%bool = true ->
  dict_get ((searchsorted_right x_bins (px p) - 1)%Z,
            (searchsorted_right y_bins (py p) - 1)%Z) hm <> None.
Proof.
  intros Hx Hy Hcall Hp Hv.
  destruct (calculate_height_map_inv _ _ _ _ _ Hcall) as [raw [Hraw _]].
  set (c := ((searchsorted_right x_bins (px p) - 1)%Z,
             (searchsorted_right y_bins (py p) - 1)%Z)).
  destruct (raw_height_map_inv _ _ _ _ Hraw) as [entries [Hent Hr]].
  assert (Hin : In (pz p, fst c, snd c) entries).
  { rewrite (bucket_entries_ascending points x_bins y_bins Hx Hy) in Hent.
    injection Hent as <-.
    apply in_map_iff. exists (p, fst c, snd c). split; [reflexivity | ].
    apply filter_In. split; [ | exact Hv].
    apply in_map_iff. now exists p. }
  apply cell_z_values_In in Hin.
  assert (Hget : exists h, dict_get c raw = Some (Some h)).
  { rewrite Hr, estimate_cells_get, group_cells_get.
    destruct (cell_z_values entries c) as [ | z zs]; [contradiction | ].
    cbn [option_map]. rewrite cell_estimate_cons. eexists. reflexivity. }
  destruct Hget as [h Hh].
  destruct (calculate_height_map_cell points x_bins y_bins threshold raw c h
              Hraw Hh) as [hm' [Hcall' Hget']].
  rewrite Hcall in Hcall'. injection Hcall' as <-. congruence.
Qed.

(** In the script, where the classifier reads the map built from the same
    frame and edges, the unoccupied-cell case never arises: the points
    left unclassified are exactly the points outside the grid. *)
Theorem excluded_are_outside_grid (points : list tpoint)
    (x_bins y_bins : list Q) (threshold : Q) (hm : dict Q) (idx : nat) :
  nondecreasing x_bins = true ->
  nondecreasing y_bins = true ->
  calculate_height_map points x_bins y_bins threshold = Returned hm ->
  (In idx (excluded_indices points x_bins y_bins hm) <->
   exists p, nth_error points idx = Some p /\ ~ inside_grid x_bins y_bins p).
Proof.
  intros Hx Hy Hcall. unfold excluded_indices.
  rewrite excluded_from_In, Nat.sub_0_r. split.
  - intros [_ [p [Hp Hu]]]. exists p. split; [exact Hp | ].
    rewrite (inside_grid_valid x_bins y_bins p Hx Hy). intros Hv.
    destruct Hu as [Hu | Hu]; [congruence | ].
    revert Hu. apply (inside_grid_has_estimate points x_bins y_bins
                        threshold hm p Hx Hy Hcall); [ | exact Hv].
    now apply nth_error_In in Hp.
  - intros [p [Hp Hout]]. split; [lia | ]. exists p. split; [exact Hp | ].
    left. rewrite (inside_grid_valid x_bins y_bins p Hx Hy) in Hout.
    now destruct (valid_index x_bins (searchsorted_right x_bins (px p) - 1)
                  && valid_index y_bins
                       (searchsorted_right y_bins (py p) - 1))%bool.
Qed.

Lemma excluded_are_outside_grid_witness :
  In 1%nat (excluded_indices [(1 # 10, 1 # 10, 0); (1, 1, 0)]
              [0; 3 # 10] [0; 3 # 10] [((0%Z, 0%Z), 0)]).
Proof.
  apply (excluded_are_outside_grid [(1 # 10, 1 # 10, 0); (1, 1, 0)]
           [0; 3 # 10] [0; 3 # 10] (5 # 100) [((0%Z, 0%Z), 0)] 1
           eq_refl eq_refl eq_refl).
  exists (1, 1, 0). split; [reflexivity | ].
  intros [i [j [[Hi [_ Hlt]] _]]].
  assert (i = 0%Z) by (simpl in Hi; lia). subst i.
  vm_compute in Hlt. discriminate Hlt.
Defined.

End ClassifierExtras.

(** * Further properties: the script's grid and clustering stages *)

Section ScriptExtras.
Local Open Scope Q_scope.

Lemma arange_length (start stop step : Q) :
  length (arange start stop step)
  = Z.to_nat (Qceiling ((stop - start) / step)).
Proof.
  unfold arange. now rewrite length_map, length_seq.
Qed.

Lemma arange_nth (start stop step : Q) (i : nat) :
  (i < length (arange start stop step))%nat ->
  nth i (arange start stop step) 0
  = start + inject_Z (Z.of_nat i) * step.
Proof.
  intros Hi. rewrite arange_length in Hi. unfold arange.
  rewrite (nth_indep _ 0 (start + inject_Z (Z.of_nat 0) * step))
    by (now rewrite length_map, length_seq).
  rewrite (map_nth (fun k => start + inject_Z (Z.of_nat k) * step)).
  now rewrite seq_nth.
Qed.

Lemma quotient_times_step (start stop step : Q) :
  0 < step -> (stop - start) / step * step == stop - start.
Proof.
  intros Hs. field. intros H. rewrite H in Hs. now apply (Qlt_irrefl 0).
Qed.

Lemma arange_below_stop (start stop step : Q) (i : nat) :
  0 < step ->
  (i < length (arange start stop step))%nat ->
  start + inject_Z (Z.of_nat i) * step < stop.
Proof.
  intros Hs Hi. rewrite arange_length in Hi.
  set (q := (stop - start) / step) in *.
  assert (Hiq : inject_Z (Z.of_nat i) < q).
  { apply Qle_lt_trans with (inject_Z (Qceiling q - 1));
      [ | apply Qceiling_lt].
    rewrite <- Zle_Qle. lia. }
  pose proof (quotient_times_step start stop step Hs) as Hq. fold q in Hq.
  pose proof (Qmult_lt_compat_r _ _ step Hs Hiq) as Hlt.
  Lqa.lra.
Qed.

Lemma strictly_ascending_map_seq (f : nat -> Q) :
  (forall k, f k < f (S k)) ->
  forall n a, strictly_ascending (map f (seq a n)) = true.
Proof.
  intros Hf. induction n as [ | n IH]; intros a; [reflexivity | ].
  cbn [seq map]. destruct n as [ | n]; [reflexivity | ].
  specialize (IH (S a)). cbn [seq map] in IH |- *.
  cbn [strictly_ascending]. cbn [strictly_ascending] in IH.
  apply andb_true_iff. split; [now apply Qlt_bool_iff | exact IH].
Qed.

Lemma arange_strictly_ascending (start stop step : Q) :
  0 < step -> strictly_ascending (arange start stop step) = true.
Proof.
  intros Hs. unfold arange. apply strictly_ascending_map_seq.
  intros k. rewrite Nat2Z.inj_succ. unfold Z.succ. rewrite inject_Z_plus.
  change (inject_Z 1) with 1. Lqa.lra.
Qed.

(** [np.arange] with a positive step gives strictly ascending edges that
    start at [start] and stay below [stop]; when [start < stop] there is at
    least one edge and the last one is within one step of [stop]. *)
Lemma arange_edges (start stop step : Q) :
  0 < step ->
  let edges := arange start stop step in
  strictly_ascending edges = true /\
  (forall x, In x edges -> start <= x /\ x < stop) /\
  (start < stop ->
   (0 < length edges)%nat /\ nth 0 edges 0 == start /\
   stop - step <= nth (length edges - 1) edges 0).
Proof.
  intros Hs. cbv zeta. split; [ | split].
  - now apply arange_strictly_ascending.
  - intros x Hx. destruct (In_nth _ _ 0 Hx) as [i [Hi <-]].
    rewrite (arange_nth _ _ _ _ Hi). split.
    + assert (0 <= inject_Z (Z.of_nat i)).
      { change 0 with (inject_Z 0). rewrite <- Zle_Qle. lia. }
      assert (0 <= inject_Z (Z.of_nat i) * step)
        by (apply Qmult_le_0_compat; [assumption | now apply Qlt_le_weak]).
      Lqa.lra.
    + now apply arange_below_stop.
  - intros Hlt.
    set (q := (stop - start) / step).
    pose proof (quotient_times_step start stop step Hs) as Hq. fold q in Hq.
    assert (Hqpos : 0 < q).
    { apply Qlt_shift_div_l; [exact Hs | Lqa.lra]. }
    assert (Hceil : (0 < Qceiling q)%Z).
    { pose proof (Qle_ceiling q) as Hc.
      assert (H0 : inject_Z 0 < inject_Z (Qceiling q))
        by (change (inject_Z 0) with 0; Lqa.lra).
      now rewrite <- Zlt_Qlt in H0. }
    pose proof (arange_length start stop step) as Hlen. fold q in Hlen.
    assert (Hpos : (0 < length (arange start stop step))%nat) by lia.
    split; [exact Hpos | ]. split.
    + rewrite arange_nth by exact Hpos.
      change (inject_Z (Z.of_nat 0)) with 0. Lqa.lra.
    + rewrite arange_nth by lia.
      replace (Z.of_nat (length (arange start stop step) - 1))
        with (Qceiling q - 1)%Z by lia.
      unfold Z.sub. rewrite inject_Z_plus, inject_Z_opp.
      change (inject_Z 1) with 1.
      pose proof (Qle_ceiling q) as Hc.
      pose proof (Qmult_le_compat_r _ _ step Hc (Qlt_le_weak _ _ Hs)) as Hm.
      Lqa.lra.
Qed.

Lemma np_max_spec (l : list Q) :
  forall a, In (np_max a l) (a :: l) /\
            forall v, In v (a :: l) -> v <= np_max a l.
Proof.
  induction l as [ | x l IH]; intros a.
  - cbn [np_max fold_left]. split; [now left | ].
    intros v [<- | []]. apply Qle_refl.
  - unfold np_max. cbn [fold_left].
    fold (np_max (if Qlt_bool a x then x else a) l).
    destruct (Qlt_bool a x) eqn:E.
    + apply Qlt_bool_iff in E. destruct (IH x) as [Hin Hle].
      split; [now right | ].
      intros v [<- | Hv]; [ | now apply Hle].
      apply Qle_trans with x; [now apply Qlt_le_weak | apply Hle; now left].
    + apply Qlt_bool_false in E. destruct (IH a) as [Hin Hle].
      split.
      * destruct Hin as [Hin | Hin]; [now left | right; now right].
      * intros v [<- | [<- | Hv]].
        -- apply Hle. now left.
        -- apply Qle_trans with a; [exact E | apply Hle; now left].
        -- apply Hle. now right.
Qed.

Lemma frame_bins_ascending (p : tpoint) (rest : list tpoint) (res : Q) :
  0 < res ->
  nondecreasing (fst (frame_bins p rest res)) = true /\
  nondecreasing (snd (frame_bins p rest res)) = true.
Proof.
  intros Hres. unfold frame_bins. cbn [fst snd].
  split; apply strictly_ascending_nondecreasing;
    now apply arange_strictly_ascending.
Qed.

(** An index past every edge is not a cell: a coordinate at or above
    [stop] is outside the grid built by [arange start stop step]. *)
Lemma above_stop_invalid (start stop step x : Q) :
  0 < step -> stop <= x ->
  valid_index (arange start stop step)
    (searchsorted_right (arange start stop step) x - 1) = false.
Proof.
  intros Hs Hx.
  set (edges := arange start stop step).
  assert (Hmono : nondecreasing edges = true).
  { apply strictly_ascending_nondecreasing.
    now apply arange_strictly_ascending. }
  destruct (searchsorted_right_spec edges x Hmono)
    as [r [Hr [Hlen [_ Habove]]]].
  assert (Hfull : r = length edges).
  { destruct (Nat.eq_dec r (length edges)) as [H | H]; [exact H | ].
    exfalso. assert (Hlt : (r < length edges)%nat) by lia.
    pose proof (Habove r (conj (Nat.le_refl r) Hlt)) as Hk.
    unfold edges in Hk, Hlt. rewrite (arange_nth _ _ _ _ Hlt) in Hk.
    pose proof (arange_below_stop start stop step r Hs Hlt). Lqa.lra. }
  rewrite Hr, Hfull. unfold valid_index.
  apply andb_false_iff. right. apply Z.ltb_ge. lia.
Qed.

Lemma segment_frame_inv (points : list tpoint) (res t1 t2 : Q)
    (non_floor floor : list nat) :
  segment_frame points res t1 t2 = Completed (non_floor, floor) ->
  exists p rest hm,
    points = p :: rest /\
    calculate_height_map points (fst (frame_bins p rest res))
      (snd (frame_bins p rest res)) t1 = Returned hm /\
    non_floor = non_floor_indices points (fst (frame_bins p rest res))
                  (snd (frame_bins p rest res)) hm t2 /\
    floor = floor_indices points non_floor.
Proof.
  unfold segment_frame. destruct points as [ | p rest]; [discriminate | ].
  destruct (frame_bins p rest res) as [x_bins y_bins] eqn:Ebins.
  destruct (calculate_height_map (p :: rest) x_bins y_bins t1)
    as [hm | e] eqn:Ecall; [ | discriminate].
  intros H. injection H as <- <-. exists p, rest, hm.
  rewrite Ebins. cbn [fst snd]. now repeat split.
Qed.



End ScriptExtras.

Section ScriptOutcomes.
Local Open Scope Q_scope.

Lemma no_valid_point_raises (points : list tpoint) (x_bins y_bins : list Q)
    (threshold : Q) :
  nondecreasing x_bins = true ->
  nondecreasing y_bins = true ->
  (forall p, In p points -> ~ inside_grid x_bins y_bins p) ->
  calculate_height_map points x_bins y_bins threshold
    = Raised ValueError_cKDTree.
Proof.
  intros Hx Hy Hout. unfold calculate_height_map, raw_height_map.
  rewrite (bucket_entries_ascending points x_bins y_bins Hx Hy).
  rewrite filter_none; [reflexivity | ].
  intros [[p i] j] Hin. apply in_map_iff in Hin.
  destruct Hin as [q [Heq Hq]]. injection Heq as <- <- <-.
  pose proof (inside_grid_valid x_bins y_bins q Hx Hy) as Hiff.
  destruct (valid_index x_bins (searchsorted_right x_bins (px q) - 1)
            && valid_index y_bins (searchsorted_right y_bins (py q) - 1))%bool;
    [ | reflexivity].
  exfalso. apply (Hout q Hq). now apply Hiff.
Qed.

Lemma some_valid_point_returns (points : list tpoint)
    (x_bins y_bins : list Q) (threshold : Q) (p : tpoint) :
  nondecreasing x_bins = true ->
  nondecreasing y_bins = true ->
  In p points -> inside_grid x_bins y_bins p ->
  exists hm,
    calculate_height_map points x_bins y_bins threshold = Returned hm.
Proof.
  intros Hx Hy Hp Hin.
  apply (inside_grid_valid x_bins y_bins p Hx Hy) in Hin.
  set (c := ((searchsorted_right x_bins (px p) - 1)%Z,
             (searchsorted_right y_bins (py p) - 1)%Z)).
  pose proof (bucket_entries_ascending points x_bins y_bins Hx Hy) as Hent.
  set (entries := map _ _) in Hent.
  assert (Hraw : raw_height_map points x_bins y_bins
                 = Returned (estimate_cells (group_cells entries))).
  { unfold raw_height_map. now rewrite Hent. }
  assert (He : In (pz p, fst c, snd c) entries).
  { apply in_map_iff. exists (p, fst c, snd c). split; [reflexivity | ].
    apply filter_In. split; [ | exact Hin].
    apply in_map_iff. now exists p. }
  apply cell_z_values_In in He.
  assert (Hget : exists h,
            dict_get c (estimate_cells (group_cells entries))
            = Some (Some h)).
  { rewrite estimate_cells_get, group_cells_get.
    destruct (cell_z_values entries c) as [ | z zs]; [contradiction | ].
    cbn [option_map]. rewrite cell_estimate_cons. eexists. reflexivity. }
  destruct Hget as [h Hh].
  destruct (calculate_height_map_cell points x_bins y_bins threshold _ c h
              Hraw Hh) as [hm [Hcall _]].
  now exists hm.
Qed.

(** With a positive grid resolution the segmentation stage fails in two
    ways only: on an empty frame ([np.min] of a zero-size array), and when
    no point of the frame falls inside the grid built from it (the
    builder's ValueError); the edges made by [np.arange] are never
    rejected by [np.digitize].  Otherwise it completes, and the two index
    lists together count every point of the frame once. *)
Theorem segment_frame_outcome (points : list tpoint) (res t1 t2 : Q) :
  0 < res ->
  match segment_frame points res t1 t2 with
  | ValueError_reduction => points = []
  | Builder_raised e =>
      e = ValueError_cKDTree /\
      exists p rest,
        points = p :: rest /\
        forall q, In q points ->
                  ~ inside_grid (fst (frame_bins p rest res))
                      (snd (frame_bins p rest res)) q
  | Completed (non_floor, floor) =>
      (length non_floor + length floor = length points)%nat /\
      exists p rest q,
        points = p :: rest /\ In q points /\
        inside_grid (fst (frame_bins p rest res))
          (snd (frame_bins p rest res)) q
  end.
Proof.
  intros Hres. unfold segment_frame.
  destruct points as [ | p rest]; [reflexivity | ].
  destruct (frame_bins_ascending p rest res Hres) as [Hx Hy].
  destruct (frame_bins p rest res) as [x_bins y_bins] eqn:Ebins.
  cbn [fst snd] in Hx, Hy.
  destruct (calculate_height_map (p :: rest) x_bins y_bins t1)
    as [hm | e] eqn:Ecall.
  - split.
    + pose proof (floor_and_non_floor_counts_aux (p :: rest) x_bins y_bins
                    hm t2) as Hc. lia.
    + exists p, rest. rewrite Ebins. cbn [fst snd].
      assert (Hsome : ~ forall q, In q (p :: rest) ->
                                  ~ inside_grid x_bins y_bins q).
      { intros Hnone.
        rewrite (no_valid_point_raises _ _ _ t1 Hx Hy Hnone) in Ecall.
        discriminate. }
      assert (Hex : exists q, In q (p :: rest) /\
                              (valid_index x_bins
                                 (searchsorted_right x_bins (px q) - 1)
                               && valid_index y_bins
                                    (searchsorted_right y_bins (py q) - 1))%bool
                              = true).
      { apply existsb_exists.
        destruct (existsb _ (p :: rest)) eqn:E; [reflexivity | ].
        exfalso. apply Hsome. intros q Hq Hin.
        apply (inside_grid_valid x_bins y_bins q Hx Hy) in Hin.
        rewrite <- not_true_iff_false in E. apply E.
        apply existsb_exists. now exists q. }
      destruct Hex as [q [Hq Hv]]. exists q.
      split; [reflexivity | ]. split; [exact Hq | ].
      now apply (inside_grid_valid x_bins y_bins q Hx Hy).
  - assert (Hnone : forall q, In q (p :: rest) ->
                              ~ inside_grid x_bins y_bins q).
    { intros q Hq Hin.
      destruct (some_valid_point_returns (p :: rest) x_bins y_bins t1 q
                  Hx Hy Hq Hin) as [hm Hcall].
      rewrite Hcall in Ecall. discriminate. }
    split.
    + rewrite (no_valid_point_raises _ _ _ t1 Hx Hy Hnone) in Ecall.
      now injection Ecall as <-.
    + exists p, rest. rewrite Ebins. cbn [fst snd]. now split.
Qed.

Lemma segment_frame_outcome_witness :
  match segment_frame [(0, 0, 0); (1 # 10, 1, 5)] (3 # 10) (5 # 100)
          (15 # 100) with
  | Builder_raised e => e = ValueError_cKDTree
  | _ => False
  end.
Proof.
  pose proof (segment_frame_outcome [(0, 0, 0); (1 # 10, 1, 5)] (3 # 10)
                (5 # 100) (15 # 100) eq_refl) as H.
  destruct (segment_frame [(0, 0, 0); (1 # 10, 1, 5)] (3 # 10) (5 # 100)
              (15 # 100)) as [[nf fl] | | e] eqn:E.
  - vm_compute in E. discriminate E.
  - vm_compute in E. discriminate E.
  - exact (proj1 H).
Defined.

(** A frame whose x' values, or whose y' values, span no more than one
    grid resolution gets fewer than two edges on that axis, hence no cell:
    the stage fails with the builder's ValueError. *)
Theorem narrow_frame_fails (p : tpoint) (rest : list tpoint)
    (res t1 t2 : Q) :
  0 < res ->
  (forall q1 q2, In q1 (p :: rest) -> In q2 (p :: rest) ->
                 px q1 - px q2 <= res) \/
  (forall q1 q2, In q1 (p :: rest) -> In q2 (p :: rest) ->
                 py q1 - py q2 <= res) ->
  segment_frame (p :: rest) res t1 t2 = Builder_raised ValueError_cKDTree.
Proof.
  intros Hres Hnarrow.
  assert (Hshort : forall start stop,
            stop - start <= res ->
            forall i, valid_index (arange start stop res) i = false).
  { intros start stop Hle i. unfold valid_index.
    rewrite arange_length.
    assert (Hq : (stop - start) / res <= 1).
    { apply Qle_shift_div_r; [exact Hres | Lqa.lra]. }
    apply Qceiling_resp_le in Hq.
    change 1 with (inject_Z 1) in Hq. rewrite Qceiling_Z in Hq.
    destruct (0 <=? i)%Z eqn:E0; [ | reflexivity].
    apply Z.leb_le in E0. cbn [andb]. apply Z.ltb_ge. lia. }
  destruct (frame_bins_ascending p rest res Hres) as [Hx Hy].
  unfold segment_frame.
  destruct (frame_bins p rest res) as [x_bins y_bins] eqn:Ebins.
  cbn [fst snd] in Hx, Hy.
  rewrite (no_valid_point_raises (p :: rest) x_bins y_bins t1 Hx Hy);
    [reflexivity | ].
  intros q Hq Hin.
  apply (inside_grid_valid x_bins y_bins q Hx Hy) in Hin.
  apply andb_true_iff in Hin. destruct Hin as [Hvx Hvy].
  unfold frame_bins in Ebins. injection Ebins as <- <-.
  destruct Hnarrow as [Hn | Hn].
  - rewrite Hshort in Hvx; [discriminate | ].
    destruct (np_max_spec (map px rest) (px p)) as [Hmax _].
    destruct (py_min_spec (map px rest) (px p)) as [Hmin _].
    change (px p :: map px rest) with (map px (p :: rest)) in Hmax, Hmin.
    apply in_map_iff in Hmax. apply in_map_iff in Hmin.
    destruct Hmax as [q1 [E1 H1]], Hmin as [q2 [E2 H2]].
    unfold np_min. rewrite <- E1, <- E2. now apply Hn.
  - rewrite Hshort in Hvy; [discriminate | ].
    destruct (np_max_spec (map py rest) (py p)) as [Hmax _].
    destruct (py_min_spec (map py rest) (py p)) as [Hmin _].
    change (py p :: map py rest) with (map py (p :: rest)) in Hmax, Hmin.
    apply in_map_iff in Hmax. apply in_map_iff in Hmin.
    destruct Hmax as [q1 [E1 H1]], Hmin as [q2 [E2 H2]].
    unfold np_min. rewrite <- E1, <- E2. now apply Hn.
Qed.

Lemma narrow_frame_fails_witness :
  segment_frame [(0, 0, 0); (2 # 10, 5, 1)] (3 # 10) (5 # 100) (15 # 100)
  = Builder_raised ValueError_cKDTree.
Proof.
  apply (narrow_frame_fails (0, 0, 0) [(2 # 10, 5, 1)] (3 # 10) (5 # 100)
           (15 # 100) eq_refl).
  left. intros q1 q2 [<- | [<- | []]] [<- | [<- | []]]; discriminate.
Defined.

End ScriptOutcomes.

Section ClusterExtras.
Local Open Scope Z_scope.

Lemma fold_max_spec (ls : list Z) :
  forall l, In (fold_left Z.max ls l) (l :: ls) /\
            forall v, In v (l :: ls) -> v <= fold_left Z.max ls l.
Proof.
  induction ls as [ | x ls IH]; intros l.
  - cbn [fold_left]. split; [now left | ]. intros v [<- | []]. lia.
  - cbn [fold_left]. destruct (IH (Z.max l x)) as [Hin Hle]. split.
    + destruct Hin as [Hin | Hin]; [ | right; now right].
      rewrite <- Hin.
      destruct (Z.max_spec l x) as [[_ E] | [_ E]]; rewrite E.
      * right. now left.
      * now left.
    + intros v [Hv | [Hv | Hv]].
      * apply Z.le_trans with (Z.max l x); [lia | apply Hle; now left].
      * apply Z.le_trans with (Z.max l x); [lia | apply Hle; now left].
      * apply Hle. now right.
Qed.

Lemma where_equal_In (labels : list Z) (cluster_id : Z) (i : nat) :
  In i (where_equal labels cluster_id) <->
  (i < length labels)%nat /\ nth i labels 0 = cluster_id.
Proof.
  unfold where_equal. rewrite filter_In, in_seq, Z.eqb_eq.
  split; intros [H1 H2]; (split; [lia | exact H2]).
Qed.

Lemma clusters_nth (labels : list Z) (n k : nat) :
  (k < n)%nat ->
  nth k (map (fun cluster_id => where_equal labels (Z.of_nat cluster_id))
           (seq 0 n)) []
  = where_equal labels (Z.of_nat k).
Proof.
  intros Hk.
  rewrite (nth_indep _ [] (where_equal labels (Z.of_nat 0)))
    by (now rewrite length_map, length_seq).
  rewrite (map_nth (fun c => where_equal labels (Z.of_nat c))).
  now rewrite seq_nth.
Qed.

(** On the label array of a non-empty cloud the function returns
    max_label + 1 clusters; point [i] is in cluster [k] iff its label is
    [k], so every point with a non-negative label is in exactly one
    cluster, and a noise point (negative label) is in none. *)
Theorem clusters_follow_labels (labels : list Z)
    (clusters : list (list nat)) (labels' : list Z) :
  cluster_non_floor_points labels = Some (clusters, labels') ->
  labels' = labels /\
  (forall i k, In i (nth k clusters []) <->
               (i < length labels)%nat /\ nth i labels 0 = Z.of_nat k) /\
  (forall i, (i < length labels)%nat -> 0 <= nth i labels 0 ->
             (Z.to_nat (nth i labels 0%Z) < length clusters)%nat) /\
  (forall i k, nth i labels 0 < 0 -> ~ In i (nth k clusters [])).
Proof.
  unfold cluster_non_floor_points.
  destruct labels as [ | l ls]; [discriminate | ].
  cbn [labels_max]. set (labels := l :: ls). set (m := fold_left Z.max ls l).
  intros H. injection H as <- <-.
  destruct (fold_max_spec ls l) as [_ Hmax]. fold m labels in Hmax.
  assert (Hmem : forall i k,
            In i (nth k (map (fun c => where_equal labels (Z.of_nat c))
                           (seq 0 (Z.to_nat (m + 1)))) []) <->
            (i < length labels)%nat /\ nth i labels 0 = Z.of_nat k).
  { intros i k.
    destruct (Nat.lt_ge_cases k (Z.to_nat (m + 1))) as [Hk | Hk].
    - rewrite clusters_nth by exact Hk. apply where_equal_In.
    - rewrite nth_overflow by (now rewrite length_map, length_seq).
      split; [contradiction | ]. intros [Hi Hl].
      assert (nth i labels 0 <= m) by (apply Hmax, nth_In; exact Hi).
      lia. }
  split; [reflexivity | ]. split; [exact Hmem | ]. split.
  - intros i Hi Hpos. rewrite length_map, length_seq.
    assert (nth i labels 0 <= m) by (apply Hmax, nth_In; exact Hi). lia.
  - intros i k Hneg Hin. apply Hmem in Hin. lia.
Qed.

Lemma clusters_follow_labels_witness :
  In 3%nat (nth 0 [[0%nat; 3%nat]; [2%nat]] []).
Proof.
  apply (clusters_follow_labels [0; -1; 1; 0] [[0%nat; 3%nat]; [2%nat]]
           [0; -1; 1; 0] eq_refl).
  split; [simpl; lia | reflexivity].
Defined.

(** The function raises (the ValueError of [labels.max()]) exactly on an
    empty cloud; on a non-empty one it returns the labels unchanged, and
    an empty cluster list exactly when every point is noise. *)
Theorem cluster_list_empty_iff (labels : list Z) :
  (cluster_non_floor_points labels = None <-> labels = []) /\
  (forall clusters labels',
     cluster_non_floor_points labels = Some (clusters, labels') ->
     (clusters = [] <-> forall l, In l labels -> l < 0)).
Proof.
  unfold cluster_non_floor_points. destruct labels as [ | l ls].
  - split; [now split | discriminate].
  - cbn [labels_max]. split; [split; discriminate | ].
    intros clusters labels' H. injection H as <- _.
    destruct (fold_max_spec ls l) as [Hin Hmax].
    set (m := fold_left Z.max ls l) in *. split.
    + intros Hnil v Hv. apply (f_equal (@length _)) in Hnil.
      rewrite length_map, length_seq in Hnil. cbn [length] in Hnil.
      specialize (Hmax v Hv). lia.
    + intros Hneg. specialize (Hneg m Hin).
      replace (Z.to_nat (m + 1)) with 0%nat by lia. reflexivity.
Qed.

End ClusterExtras.

Section FrameGridExtras.
Local Open Scope Q_scope.

Lemma arange_nonempty (start stop step : Q) :
  0 < step -> arange start stop step <> [] -> start < stop.
Proof.
  intros Hs Hne. apply Qnot_le_lt. intros Hle. apply Hne.
  apply length_zero_iff_nil. rewrite arange_length.
  assert (Hq : (stop - start) / step <= 0).
  { apply Qle_shift_div_r; [exact Hs | Lqa.lra]. }
  apply Qceiling_resp_le in Hq.
  change 0 with (inject_Z 0) in Hq. rewrite Qceiling_Z in Hq. lia.
Qed.

Lemma axis_covered (first : Q) (others : list Q) (res x : Q) :
  0 < res -> In x (first :: others) ->
  let bins := arange (np_min first others) (np_max first others) res in
  strictly_ascending bins = true /\
  (bins <> [] ->
   nth 0 bins 0 <= x /\ x <= nth (length bins - 1) bins 0 + res).
Proof.
  intros Hres Hx bins.
  split; [now apply arange_strictly_ascending | ].
  intros Hne.
  pose proof (arange_nonempty _ _ _ Hres Hne) as Hlt.
  destruct (arange_edges (np_min first others) (np_max first others) res
              Hres) as [_ [_ Hends]].
  destruct (Hends Hlt) as [_ [Hfirst Hlast]]. fold bins in Hfirst, Hlast.
  destruct (py_min_spec others first) as [_ Hmin].
  destruct (np_max_spec others first) as [_ Hmax].
  specialize (Hmin x Hx). specialize (Hmax x Hx).
  unfold np_min in *. split; Lqa.lra.
Qed.



End FrameGridExtras.

Section ClusterWitnesses.

Lemma cluster_list_empty_iff_witness :
  cluster_non_floor_points [(-1)%Z; (-1)%Z] = Some ([], [(-1)%Z; (-1)%Z]) /\
  [] = ([] : list (list nat)).
Proof.
  split; [reflexivity | ].
  apply (proj2 (cluster_list_empty_iff [(-1)%Z; (-1)%Z]) []
           [(-1)%Z; (-1)%Z] eq_refl).
  intros l [<- | [<- | []]]; reflexivity.
Defined.

End ClusterWitnesses.

(** * A second smoothing pass *)

Section SecondPass.
Local Open Scope Q_scope.

Lemma as_raw_keys (hm : dict Q) : map fst (as_raw hm) = map fst hm.
Proof.
  unfold as_raw. rewrite map_map. reflexivity.
Qed.

Lemma as_raw_get (hm : dict Q) (c : cell) :
  dict_get c (as_raw hm) = option_map Some (dict_get c hm).
Proof.
  induction hm as [ | [k v] hm IH]; [reflexivity | ].
  cbn [as_raw map fst snd dict_get].
  destruct (cell_eqb c k); [reflexivity | exact IH].
Qed.

Lemma as_raw_values (hm : dict Q) (c : cell) (v : option Q) :
  In (c, v) (as_raw hm) -> exists h, v = Some h.
Proof.
  unfold as_raw. rewrite in_map_iff. intros [[k h] [Heq _]].
  injection Heq as _ <-. now exists h.
Qed.

(** Two dicts with the same keys in the same order and the same value at
    every key are the same dict. *)
Lemma dict_ext {V : Type} (d1 : dict V) :
  forall d2,
    map fst d1 = map fst d2 ->
    NoDup (map fst d1) ->
    (forall c, dict_get c d1 = dict_get c d2) ->
    d1 = d2.
Proof.
  induction d1 as [ | [k v] d1 IH]; intros [ | [k' v'] d2] Hkeys Hnd Hget;
    try discriminate Hkeys; [reflexivity | ].
  cbn [map fst] in Hkeys, Hnd. injection Hkeys as <- Hkeys.
  inversion Hnd as [ | ? ? Hnotin Hnd']; subst.
  pose proof (Hget k) as Hk. cbn [dict_get] in Hk.
  rewrite cell_eqb_refl in Hk. injection Hk as <-.
  f_equal. apply IH; [exact Hkeys | exact Hnd' | ].
  intros c. specialize (Hget c). cbn [dict_get] in Hget.
  destruct (cell_eqb c k) eqn:E; [ | exact Hget].
  apply cell_eqb_eq in E. subst c.
  assert (H1 : dict_get k d1 = None) by now apply dict_get_None.
  assert (H2 : dict_get k d2 = None)
    by (apply dict_get_None; now rewrite <- Hkeys).
  congruence.
Qed.

Lemma calculate_height_map_keys (points : list tpoint)
    (x_bins y_bins : list Q) (threshold : Q) (once : dict Q) :
  calculate_height_map points x_bins y_bins threshold = Returned once ->
  NoDup (map fst once) /\ once <> [].
Proof.
  intros Hcall.
  destruct (calculate_height_map_inv _ _ _ _ _ Hcall) as [raw [Hraw Hp]].
  pose proof (raw_height_map_NoDup _ _ _ _ Hraw) as Hnd.
  assert (Hkeys : map fst once = map fst raw).
  { rewrite Hp. rewrite fold_process_item_keys; [reflexivity | | exact Hnd].
    intros c v Hin.
    pose proof (In_dict_get c v raw Hnd Hin) as Hget.
    destruct (raw_cell_inv _ _ _ _ c v Hraw Hget) as [_ [z [zs [_ [_ ->]]]]].
    eexists. reflexivity. }
  split; [now rewrite Hkeys | ].
  intros Hnil. rewrite Hnil in Hkeys. cbn [map] in Hkeys.
  symmetry in Hkeys. apply map_eq_nil in Hkeys. subst raw.
  unfold calculate_height_map in Hcall. rewrite Hraw in Hcall.
  discriminate Hcall.
Qed.




End SecondPass.

(** * The bounds test and the extent of the grid *)

Section BoundsTest.
Local Open Scope Q_scope.

(** On ascending edges the bounds tests of the builder (the valid mask of
    lines 53-54) and of the classifier (line 213) keep exactly the points
    whose coordinates lie in the half-open extent from the first edge to
    the last on both axes: such a point, and no other, contributes an
    entry to the builder, under its right-open cell; a point outside that
    extent is never listed as non-floor and is always counted as floor. *)
Theorem bounds_test_is_extent (points : list tpoint)
    (x_bins y_bins : list Q) (hm : dict Q) (threshold : Q) :
  nondecreasing x_bins = true ->
  nondecreasing y_bins = true ->
  exists entries,
    bucket_entries points x_bins y_bins = Returned entries /\
    (forall p,
       In p points ->
       ((exists i j, In (pz p, i, j) entries /\
                     right_open_cell x_bins (px p) i /\
                     right_open_cell y_bins (py p) j) <->
        in_extent x_bins (px p) /\ in_extent y_bins (py p))) /\
    (forall z i j,
       In (z, i, j) entries ->
       exists p, In p points /\ z = pz p /\
                 in_extent x_bins (px p) /\ in_extent y_bins (py p)) /\
    (forall idx p,
       nth_error points idx = Some p ->
       let non_floor :=
         non_floor_indices points x_bins y_bins hm threshold in
       (In idx non_floor ->
        in_extent x_bins (px p) /\ in_extent y_bins (py p)) /\
       (~ (in_extent x_bins (px p) /\ in_extent y_bins (py p)) ->
        In idx (floor_indices points non_floor))).
Proof.
  intros Hx Hy.
  pose proof (bucket_entries_ascending points x_bins y_bins Hx Hy) as Hent.
  set (entries := map _ _) in Hent.
  exists entries. split; [exact Hent | ].
  assert (Hin : forall z i j,
            In (z, i, j) entries <->
            exists p, In p points /\ z = pz p /\
                      i = (searchsorted_right x_bins (px p) - 1)%Z /\
                      j = (searchsorted_right y_bins (py p) - 1)%Z /\
                      (valid_index x_bins i && valid_index y_bins j)%bool
                      = true).
  { intros z i j. unfold entries. rewrite in_map_iff. split.
    - intros [[[p i'] j'] [Heq H]]. injection Heq as <- <- <-.
      apply filter_In in H. destruct H as [H Hv].
      apply in_map_iff in H. destruct H as [q [Heq Hq]].
      injection Heq as <- <- <-. exists q. now repeat split.
    - intros [p [Hp [-> [-> [-> Hv]]]]].
      exists (p, (searchsorted_right x_bins (px p) - 1)%Z,
              (searchsorted_right y_bins (py p) - 1)%Z).
      split; [reflexivity | ]. apply filter_In. split; [ | exact Hv].
      apply in_map_iff. now exists p. }
  split; [ | split].
  - intros p Hp. rewrite <- (inside_grid_in_extent x_bins y_bins p Hx Hy).
    split.
    + intros [i [j [_ [Hi Hj]]]]. now exists i, j.
    + intros Hgrid.
      pose proof (proj1 (inside_grid_valid x_bins y_bins p Hx Hy) Hgrid)
        as Hv.
      exists (searchsorted_right x_bins (px p) - 1)%Z,
             (searchsorted_right y_bins (py p) - 1)%Z.
      split.
      * apply Hin. exists p. now repeat split.
      * apply andb_true_iff in Hv. destruct Hv as [Hvx Hvy].
        split; now apply searchsorted_right_open_cell.
  - intros z i j Hz. apply Hin in Hz.
    destruct Hz as [p [Hp [-> [-> [-> Hv]]]]].
    exists p. split; [exact Hp | ]. split; [reflexivity | ].
    apply (inside_grid_in_extent x_bins y_bins p Hx Hy).
    now apply (inside_grid_valid x_bins y_bins p Hx Hy).
  - intros idx p Hp non_floor.
    assert (Hnf : In idx non_floor ->
                  in_extent x_bins (px p) /\ in_extent y_bins (py p)).
    { intros Hidx. apply classify_from_In in Hidx.
      rewrite Nat.sub_0_r in Hidx. destruct Hidx as [_ [q [Hq [Hv _]]]].
      rewrite Hp in Hq. injection Hq as <-.
      apply (inside_grid_in_extent x_bins y_bins p Hx Hy).
      now apply (inside_grid_valid x_bins y_bins p Hx Hy). }
    split; [exact Hnf | ].
    intros Hout. apply floor_indices_In. split.
    + apply nth_error_Some. congruence.
    + intros Hidx. apply Hout. now apply Hnf.
Qed.

Lemma bounds_test_is_extent_witness :
  exists entries,
    bucket_entries [(3 # 10, 1 # 10, 0); (6 # 10, 1 # 10, 5)]
      [0; 3 # 10; 6 # 10] [0; 3 # 10] = Returned entries /\
    forall z i j,
      In (z, i, j) entries ->
      exists p, In p [(3 # 10, 1 # 10, 0); (6 # 10, 1 # 10, 5)] /\
                z = pz p /\
                in_extent [0; 3 # 10; 6 # 10] (px p) /\
                in_extent [0; 3 # 10] (py p).
Proof.
  destruct (bounds_test_is_extent [(3 # 10, 1 # 10, 0); (6 # 10, 1 # 10, 5)]
              [0; 3 # 10; 6 # 10] [0; 3 # 10] [((1%Z, 0%Z), 0)] (15 # 100)
              eq_refl eq_refl) as [entries [Hent [_ [Hall _]]]].
  exists entries. split; [exact Hent | exact Hall].
Defined.

End BoundsTest.
